(** * S3ToRedshiftOperator: the load-strategy planner of
      [airflow/providers/amazon/aws/transfers/s3_to_redshift.py]

    The operator is embedded as executable Rocq functions.  Python strings are
    [string]s, [str | None] is [option string], dictionaries are [gmap]s keyed
    by strings.  The hooks the operator talks to (S3, Redshift SQL, Redshift
    Data API) live outside the file: they are gathered in a record [World]
    of answers, and every construction of a hook and every call on one is
    written to a log of [Event]s, so that "before any backend is touched"
    and "no statement was executed" are statements about that log. *)

From Stdlib Require Import Ascii String.
From stdpp Require Import gmap strings list fin_maps pretty.

Module S3ToRedshift.

(** ** Python values and truthiness *)

(** Values carried in the Data API keyword arguments.  The operator never
    looks inside them: it only tests which keys are present. *)
Inductive PyVal :=
  | PStr (s : string)
  | PInt (z : Z)
  | PBool (b : bool)
  | PNone.

(** [verify: bool | str | None] *)
Inductive Verify :=
  | VerifyNone
  | VerifyBool (b : bool)
  | VerifyPath (p : string).

(** [bool(s)] for a string. *)
Definition str_truthy (s : string) : bool :=
  match s with
  | EmptyString => false
  | String _ _ => true
  end.

(** [bool(o)] for [str | None]. *)
Definition opt_str_truthy (o : option string) : bool :=
  match o with
  | Some s => str_truthy s
  | None => false
  end.

(** [bool(l)] for a list. *)
Definition list_truthy {A} (l : list A) : bool :=
  match l with
  | [] => false
  | _ :: _ => true
  end.

(** [bool(o)] for [list | None]. *)
Definition opt_list_truthy {A} (o : option (list A)) : bool :=
  match o with
  | Some l => list_truthy l
  | None => false
  end.

(** [bool(d)] for a dictionary: false exactly on the empty one. *)
Definition dict_truthy {V} (d : gmap string V) : bool :=
  negb (bool_decide (d = ∅)).

(** [k in d] *)
Definition dict_has {V} (k : string) (d : gmap string V) : bool :=
  match d !! k with
  | Some _ => true
  | None => false
  end.

(** [x in l] for a list of strings. *)
Fixpoint in_list (x : string) (l : list string) : bool :=
  match l with
  | [] => false
  | y :: l' => if String.eqb x y then true else in_list x l'
  end.

(** [f"{o}"] for [str | None]: [None] prints as the word None. *)
Definition py_str (o : option string) : string :=
  match o with
  | Some s => s
  | None => "None"
  end.

(** [sep.join(l)] *)
Definition join (sep : string) (l : list string) : string := String.concat sep l.

Definition nl : string := String "010"%char EmptyString.
Definition tab : string := String "009"%char EmptyString.

(** [n] blanks: the indentation inside the triple-quoted template. *)
Fixpoint spaces (n : nat) : string :=
  match n with
  | O => EmptyString
  | S k => String " "%char (spaces k)
  end.

(** ** The operator *)

Definition AVAILABLE_METHODS : list string := ["APPEND"; "REPLACE"; "UPSERT"].

(** The attributes [__init__] stores on [self]. *)
Record S3ToRedshiftOperator := {
  schema : option string;
  table : string;
  s3_bucket : string;
  s3_key : string;
  redshift_conn_id : string;
  aws_conn_id : option string;
  verify : Verify;
  column_list : option (list string);
  copy_options : list string;
  autocommit : bool;
  method : string;
  upsert_keys : option (list string);
  redshift_data_api_kwargs : gmap string PyVal
}.

(** The keyword arguments of [__init__], before defaults are filled in:
    [copy_options] and [redshift_data_api_kwargs] may still be [None]. *)
Record InitArgs := {
  arg_schema : option string;
  arg_table : string;
  arg_s3_bucket : string;
  arg_s3_key : string;
  arg_redshift_conn_id : string;
  arg_aws_conn_id : option string;
  arg_verify : Verify;
  arg_column_list : option (list string);
  arg_copy_options : option (list string);
  arg_autocommit : bool;
  arg_method : string;
  arg_upsert_keys : option (list string);
  arg_redshift_data_api_kwargs : option (gmap string PyVal)
}.

(** ** The outside world *)

Inductive Exception :=
  | AirflowException (msg : string)
  | BackendError (msg : string).

(** What is passed as [sql]: a single string (APPEND) or a list of them. *)
Inductive Sql :=
  | SqlStr (s : string)
  | SqlList (l : list string).

(** [conn.extra_dejson] *)
Record Connection := { extra_dejson : gmap string string }.

Record Credentials := {
  access_key : string;
  secret_key : string;
  token : option string
}.

(** The answers of the collaborators.  Each call on a hook may raise;
    constructing a hook does not.  [build_credentials_block] comes from
    [airflow.providers.amazon.aws.utils.redshift] and is kept abstract. *)
Record World := {
  S3Hook_get_connection : string -> Exception + Connection;
  S3Hook_get_credentials : option string -> Verify -> Exception + Credentials;
  build_credentials_block : Credentials -> string;
  RedshiftSQLHook_get_table_primary_key :
    string -> string -> option string -> Exception + option (list string);
  RedshiftDataHook_get_table_primary_key :
    string -> string -> option string -> gmap string PyVal ->
    Exception + option (list string);
  RedshiftSQLHook_run : string -> Sql -> bool -> Exception + unit;
  RedshiftDataHook_execute_query :
    string -> Sql -> gmap string PyVal -> Exception + unit
}.

(** One entry per hook constructed, per call made on a hook, per log line. *)
Inductive Event :=
  | NewRedshiftDataHook (conn_id : string)
  | NewRedshiftSQLHook (conn_id : string)
  | GetConnection (conn_id : string)
  | NewS3Hook (conn_id : option string) (v : Verify)
  | GetCredentials
  | GetTablePrimaryKey (tbl : string) (sch : option string)
  | ExecuteQuery (sql : Sql) (kwargs : gmap string PyVal)
  | Run (sql : Sql) (autocommit : bool)
  | LogInfo (msg : string).

(** ** A log-and-exception monad *)

Definition M (A : Type) : Type := list Event * (Exception + A).

Definition ret {A} (a : A) : M A := ([], inr a).

Definition raise {A} (e : Exception) : M A := ([], inl e).

Definition bind {A B} (m : M A) (f : A -> M B) : M B :=
  match m with
  | (t, inl e) => (t, inl e)
  | (t, inr a) => let '(t', r) := f a in (t ++ t', r)
  end.

Definition emit (e : Event) : M unit := ([e], inr tt).

(** A call on a hook: logged, then answered by the world. *)
Definition call {A} (e : Event) (answer : Exception + A) : M A := ([e], answer).

Notation "x <- m ;; k" := (bind m (fun x => k))
  (at level 100, m at next level, k at level 200, right associativity).
Notation "m ;;; k" := (bind m (fun _ => k))
  (at level 100, k at level 200, right associativity).

(** ** [__init__] (lines 88-124) *)

(** Lines 122-124: the loop over the two reserved keys. *)
Fixpoint check_reserved (args : list string) (kwargs : gmap string PyVal) : M unit :=
  match args with
  | [] => ret tt
  | arg :: rest =>
      if dict_has arg kwargs
      then raise (AirflowException
                    ("Cannot include param '" +:+ arg +:+ "' in Redshift Data API kwargs"))
      else check_reserved rest kwargs
  end.

(** Lines 107-124: the attributes are stored and the keyword arguments
    checked.  This is what [__init__] does once the constructor of
    [BaseOperator], called at line 106, has returned. *)
Definition __init__ (a : InitArgs) : M S3ToRedshiftOperator :=
  let self :=
    {| schema := arg_schema a;
       table := arg_table a;
       s3_bucket := arg_s3_bucket a;
       s3_key := arg_s3_key a;
       redshift_conn_id := arg_redshift_conn_id a;
       aws_conn_id := arg_aws_conn_id a;
       verify := arg_verify a;
       column_list := arg_column_list a;
       copy_options := default [] (arg_copy_options a);
       autocommit := arg_autocommit a;
       method := arg_method a;
       upsert_keys := arg_upsert_keys a;
       redshift_data_api_kwargs := default ∅ (arg_redshift_data_api_kwargs a) |} in
  if dict_truthy (redshift_data_api_kwargs self)
  then check_reserved ["sql"; "parameters"] (redshift_data_api_kwargs self) ;;; ret self
  else ret self.

(** Lines 106-124: the constructor of [BaseOperator] runs first, on the
    keyword arguments that [__init__] does not name; [base] is its outcome.
    When it raises, no attribute is stored and no check is made. *)
Definition __init__with_super (base : Exception + unit) (a : InitArgs)
    : M S3ToRedshiftOperator :=
  match base with
  | inl e => raise e
  | inr _ => __init__ a
  end.

(** ** [use_redshift_data] (lines 126-128) *)

Definition use_redshift_data (self : S3ToRedshiftOperator) : bool :=
  dict_truthy (redshift_data_api_kwargs self).

(** ** [_build_copy_query] (lines 130-141) *)

(** Line 133, the local [column_names]. *)
Definition column_names (self : S3ToRedshiftOperator) : string :=
  match column_list self with
  | Some (c :: cs) => "(" +:+ join ", " (c :: cs) +:+ ")"
  | _ => ""
  end.

Definition _build_copy_query (self : S3ToRedshiftOperator)
    (copy_destination credentials_block region_info copy_options : string) : string :=
  nl +:+ spaces 20 +:+ "COPY " +:+ copy_destination +:+ " " +:+ column_names self +:+
  nl +:+ spaces 20 +:+ "FROM 's3://" +:+ s3_bucket self +:+ "/" +:+ s3_key self +:+ "'" +:+
  nl +:+ spaces 20 +:+ "credentials" +:+
  nl +:+ spaces 20 +:+ "'" +:+ credentials_block +:+ "'" +:+
  nl +:+ spaces 20 +:+ region_info +:+
  nl +:+ spaces 20 +:+ copy_options +:+ ";" +:+
  nl +:+ spaces 8.

(** ** [execute] (lines 143-205) *)

(** Lines 147-150: one of the two Redshift hooks is constructed. *)
Definition select_hook (self : S3ToRedshiftOperator) : M unit :=
  if use_redshift_data self
  then emit (NewRedshiftDataHook (redshift_conn_id self))
  else emit (NewRedshiftSQLHook (redshift_conn_id self)).

(** [conn and conn.extra_dejson.get(k, False)]: the value when it is there
    and truthy. *)
Definition truthy_extra (conn : option Connection) (k : string) : option string :=
  match conn with
  | Some c =>
      match extra_dejson c !! k with
      | Some v => if str_truthy v then Some v else None
      | None => None
      end
  | None => None
  end.

(** Lines 153-155, the local [region_info]. *)
Definition region_info (conn : option Connection) : string :=
  match truthy_extra conn "region" with
  | Some r => "region '" +:+ r +:+ "'"
  | None => ""
  end.

(** Lines 152-161: the locals [conn], [region_info] and [credentials_block]. *)
Definition credentials_and_region (w : World) (self : S3ToRedshiftOperator)
    : M (string * string) :=
  conn <- match aws_conn_id self with
          | Some id =>
              if str_truthy id
              then c <- call (GetConnection id) (S3Hook_get_connection w id) ;; ret (Some c)
              else ret None
          | None => ret None
          end ;;
  credentials_block <-
    match truthy_extra conn "role_arn" with
    | Some arn => ret ("aws_iam_role=" +:+ arn)
    | None =>
        emit (NewS3Hook (aws_conn_id self) (verify self)) ;;;
        credentials <- call GetCredentials
                         (S3Hook_get_credentials w (aws_conn_id self) (verify self)) ;;
        ret (build_credentials_block w credentials)
    end ;;
  ret (region_info conn, credentials_block).

(** Line 163, the local [copy_options]. *)
Definition copy_options_clause (self : S3ToRedshiftOperator) : string :=
  join (nl +:+ tab +:+ tab +:+ tab) (copy_options self).

(** Line 164, the local [destination]. *)
Definition destination (self : S3ToRedshiftOperator) : string :=
  if opt_str_truthy (schema self)
  then py_str (schema self) +:+ "." +:+ table self
  else table self.

(** Line 165, the local [copy_destination]. *)
Definition copy_destination (self : S3ToRedshiftOperator) : string :=
  if String.eqb (method self) "UPSERT" then "#" +:+ table self else destination self.

(** Lines 176-181: [get_table_primary_key] on the hook that was selected. *)
Definition get_table_primary_key (w : World) (self : S3ToRedshiftOperator)
    : M (option (list string)) :=
  if use_redshift_data self
  then call (GetTablePrimaryKey (table self) (schema self))
         (RedshiftDataHook_get_table_primary_key w (redshift_conn_id self)
            (table self) (schema self) (redshift_data_api_kwargs self))
  else call (GetTablePrimaryKey (table self) (schema self))
         (RedshiftSQLHook_get_table_primary_key w (redshift_conn_id self)
            (table self) (schema self)).

(** Line 186, the local [where_statement]. *)
Definition where_statement (self : S3ToRedshiftOperator) (keys : list string) : string :=
  join " AND "
    (map (fun k => table self +:+ "." +:+ k +:+ " = " +:+ copy_destination self +:+ "." +:+ k)
       keys).

(** Lines 167-198: the locals [copy_statement] and [sql]. *)
Definition build_sql (w : World) (self : S3ToRedshiftOperator)
    (region_info credentials_block : string) : M Sql :=
  let copy_statement :=
    _build_copy_query self (copy_destination self) credentials_block region_info
      (copy_options_clause self) in
  if String.eqb (method self) "REPLACE" then
    ret (SqlList ["BEGIN;";
                  "DELETE FROM " +:+ destination self +:+ ";";
                  copy_statement;
                  "COMMIT"])
  else if String.eqb (method self) "UPSERT" then
    keys <- (if opt_list_truthy (upsert_keys self)
             then ret (upsert_keys self)
             else get_table_primary_key w self) ;;
    if negb (opt_list_truthy keys) then
      raise (AirflowException
               ("No primary key on " +:+ py_str (schema self) +:+ "." +:+ table self
                +:+ ". Please provide keys on 'upsert_keys'"))
    else
      ret (SqlList
             ["CREATE TABLE " +:+ copy_destination self +:+ " (LIKE " +:+ destination self
                +:+ " INCLUDING DEFAULTS);";
              copy_statement;
              "BEGIN;";
              "DELETE FROM " +:+ destination self +:+ " USING " +:+ copy_destination self
                +:+ " WHERE " +:+ where_statement self (default [] keys) +:+ ";";
              "INSERT INTO " +:+ destination self +:+ " SELECT * FROM "
                +:+ copy_destination self +:+ ";";
              "COMMIT"])
  else ret (SqlStr copy_statement).

(** Lines 200-205: the statements are handed to the selected hook. *)
Definition run_sql (w : World) (self : S3ToRedshiftOperator) (sql : Sql) : M unit :=
  emit (LogInfo "Executing COPY command...") ;;;
  (if use_redshift_data self
   then call (ExecuteQuery sql (redshift_data_api_kwargs self))
          (RedshiftDataHook_execute_query w (redshift_conn_id self) sql
             (redshift_data_api_kwargs self))
   else call (Run sql (autocommit self))
          (RedshiftSQLHook_run w (redshift_conn_id self) sql (autocommit self))) ;;;
  emit (LogInfo "COPY command complete...").

(** Lines 143-205.  The membership test of lines 144-145 comes first; the
    four phases above follow in the order of the source. *)
Definition execute (w : World) (self : S3ToRedshiftOperator) : M unit :=
  if negb (in_list (method self) AVAILABLE_METHODS) then
    raise (AirflowException
             "Method not found! Available methods: ['APPEND', 'REPLACE', 'UPSERT']")
  else
    select_hook self ;;;
    rc <- credentials_and_region w self ;;
    sql <- build_sql w self (fst rc) (snd rc) ;;
    run_sql w self sql.

(** ** Reading a log *)

(** Every [sql] value handed to a Redshift hook, in order. *)
Fixpoint submissions (t : list Event) : list Sql :=
  match t with
  | [] => []
  | ExecuteQuery sql _ :: t' => sql :: submissions t'
  | Run sql _ :: t' => sql :: submissions t'
  | _ :: t' => submissions t'
  end.

(** Whether static credentials were asked for: an S3 hook was built or
    [get_credentials] was called. *)
Fixpoint fetches_credentials (t : list Event) : bool :=
  match t with
  | [] => false
  | NewS3Hook _ _ :: _ => true
  | GetCredentials :: _ => true
  | _ :: t' => fetches_credentials t'
  end.

(** Whether primary-key discovery was attempted. *)
Fixpoint discovers_keys (t : list Event) : bool :=
  match t with
  | [] => false
  | GetTablePrimaryKey _ _ :: _ => true
  | _ :: t' => discovers_keys t'
  end.

(** The statements an [sql] value consists of: a bare string is one. *)
Definition statements (sql : Sql) : list string :=
  match sql with
  | SqlStr s => [s]
  | SqlList l => l
  end.

(** The hook [select_hook] constructs. *)
Definition hook_event (self : S3ToRedshiftOperator) : Event :=
  if use_redshift_data self
  then NewRedshiftDataHook (redshift_conn_id self)
  else NewRedshiftSQLHook (redshift_conn_id self).

(** ** Functional updates of single attributes *)

Definition with_column_list (self : S3ToRedshiftOperator) (cl : option (list string))
    : S3ToRedshiftOperator :=
  {| schema := schema self; table := table self; s3_bucket := s3_bucket self;
     s3_key := s3_key self; redshift_conn_id := redshift_conn_id self;
     aws_conn_id := aws_conn_id self; verify := verify self;
     column_list := cl;
     copy_options := copy_options self; autocommit := autocommit self;
     method := method self; upsert_keys := upsert_keys self;
     redshift_data_api_kwargs := redshift_data_api_kwargs self |}.

Definition with_upsert_keys (self : S3ToRedshiftOperator) (ks : option (list string))
    : S3ToRedshiftOperator :=
  {| schema := schema self; table := table self; s3_bucket := s3_bucket self;
     s3_key := s3_key self; redshift_conn_id := redshift_conn_id self;
     aws_conn_id := aws_conn_id self; verify := verify self;
     column_list := column_list self;
     copy_options := copy_options self; autocommit := autocommit self;
     method := method self; upsert_keys := ks;
     redshift_data_api_kwargs := redshift_data_api_kwargs self |}.

(** ** Sample inputs *)

(** A world whose S3 connection knows a region, whose credentials are static
    and whose tables have no primary key. *)
Definition sample_world : World :=
  {| S3Hook_get_connection := fun _ =>
       inr {| extra_dejson := {[ "region" := "eu-west-1" ]} |};
     S3Hook_get_credentials := fun _ _ =>
       inr {| access_key := "AK"; secret_key := "SK"; token := None |};
     build_credentials_block := fun c =>
       "aws_access_key_id=" +:+ access_key c +:+ ";aws_secret_access_key=" +:+ secret_key c;
     RedshiftSQLHook_get_table_primary_key := fun _ _ _ => inr None;
     RedshiftDataHook_get_table_primary_key := fun _ _ _ _ => inr (Some []);
     RedshiftSQLHook_run := fun _ _ _ => inr tt;
     RedshiftDataHook_execute_query := fun _ _ _ => inr tt |}.

(** The same world, with an IAM role on the S3 connection. *)
Definition role_world : World :=
  {| S3Hook_get_connection := fun _ =>
       inr {| extra_dejson := {[ "role_arn" := "arn:aws:iam::1:role/load" ]} |};
     S3Hook_get_credentials := S3Hook_get_credentials sample_world;
     build_credentials_block := build_credentials_block sample_world;
     RedshiftSQLHook_get_table_primary_key :=
       RedshiftSQLHook_get_table_primary_key sample_world;
     RedshiftDataHook_get_table_primary_key :=
       RedshiftDataHook_get_table_primary_key sample_world;
     RedshiftSQLHook_run := RedshiftSQLHook_run sample_world;
     RedshiftDataHook_execute_query := RedshiftDataHook_execute_query sample_world |}.

(** [S3ToRedshiftOperator(schema="public", table="orders", s3_bucket="bkt",
    s3_key="k", method=m, upsert_keys=ks)], every other argument defaulted. *)
Definition orders (m : string) (ks : option (list string)) : S3ToRedshiftOperator :=
  {| schema := Some "public"; table := "orders"; s3_bucket := "bkt"; s3_key := "k";
     redshift_conn_id := "redshift_default"; aws_conn_id := Some "aws_default";
     verify := VerifyNone; column_list := None; copy_options := [];
     autocommit := false; method := m; upsert_keys := ks;
     redshift_data_api_kwargs := ∅ |}.

Definition orders_args (kw : option (gmap string PyVal)) : InitArgs :=
  {| arg_schema := Some "public"; arg_table := "orders"; arg_s3_bucket := "bkt";
     arg_s3_key := "k"; arg_redshift_conn_id := "redshift_default";
     arg_aws_conn_id := Some "aws_default"; arg_verify := VerifyNone;
     arg_column_list := None; arg_copy_options := None; arg_autocommit := false;
     arg_method := "APPEND"; arg_upsert_keys := None;
     arg_redshift_data_api_kwargs := kw |}.

(** ** Reading a COPY text back *)

(** [c in s] for a character. *)
Fixpoint has_char (c : ascii) (s : string) : bool :=
  match s with
  | EmptyString => false
  | String a s' => Ascii.eqb a c || has_char c s'
  end.

(** The characters that delimit the fields of the COPY template: the two
    quotes, the colon and the slash of [s3://], and white space. *)
Definition delimiters : list ascii :=
  ["'"; "034"; ":"; "/"; " "; "009"; "010"; "013"]%char.

Definition delimiter_free (s : string) : bool :=
  forallb (fun c => negb (has_char c s)) delimiters.

(** [s.split(c, 1)]: the text before the first [c] and the text after it. *)
Fixpoint split_at (c : ascii) (s : string) : option (string * string) :=
  match s with
  | EmptyString => None
  | String a s' =>
      if Ascii.eqb a c then Some (EmptyString, s')
      else match split_at c s' with
           | Some (l, r) => Some (String a l, r)
           | None => None
           end
  end.

(** [s.removeprefix(p)], failing when [s] does not start with [p]. *)
Fixpoint strip_prefix (p s : string) : option string :=
  match p, s with
  | EmptyString, _ => Some s
  | String a p', String b s' => if Ascii.eqb a b then strip_prefix p' s' else None
  | String _ _, EmptyString => None
  end.

(** Modelled from the spec: the repository has no reader of COPY texts; the
    round-trip property speaks of re-parsing destination, bucket and key
    prefix from the compiled text.  This reader follows the template of
    [_build_copy_query]: the destination runs from [COPY ] to the next
    blank, the bucket from the [s3://] behind the first quote to the next
    slash, the key prefix from there to the closing quote. *)
Definition parse_copy_query (q : string) : option (string * string * string) :=
  match strip_prefix (nl +:+ spaces 20 +:+ "COPY ") q with
  | None => None
  | Some q1 =>
      match split_at " " q1 with
      | None => None
      | Some (dest, q2) =>
          match split_at "'" q2 with
          | None => None
          | Some (_, q3) =>
              match strip_prefix "s3://" q3 with
              | None => None
              | Some q4 =>
                  match split_at "/" q4 with
                  | None => None
                  | Some (bucket, q5) =>
                      match split_at "'" q5 with
                      | None => None
                      | Some (key, _) => Some (dest, bucket, key)
                      end
                  end
              end
          end
      end
  end.

(** Two operators whose COPY texts coincide although they load from
    different places: the column name of the second spells out the FROM and
    credentials lines of the first, the copy options passed with the first
    spell out those of the second. *)
Definition spoof_lines (bucket_key : string) : string :=
  ")" +:+ nl +:+ spaces 20 +:+ "FROM 's3://" +:+ bucket_key +:+ "'" +:+
  nl +:+ spaces 20 +:+ "credentials" +:+
  nl +:+ spaces 20 +:+ "'c'" +:+
  nl +:+ spaces 20 +:+
  nl +:+ spaces 20.

Definition spoof_source (bucket key : string) (cols opts : list string)
    : S3ToRedshiftOperator :=
  {| schema := None; table := "t"; s3_bucket := bucket; s3_key := key;
     redshift_conn_id := "redshift_default"; aws_conn_id := Some "aws_default";
     verify := VerifyNone; column_list := Some cols; copy_options := opts;
     autocommit := false; method := "APPEND"; upsert_keys := None;
     redshift_data_api_kwargs := ∅ |}.

Definition spoof_a : S3ToRedshiftOperator :=
  spoof_source "b1" "k1" ["a"] [spoof_lines "b2/k2"].

Definition spoof_b : S3ToRedshiftOperator :=
  spoof_source "b2" "k2" ["a" +:+ spoof_lines "b1/k1"] [].

(** ** [get_openlineage_facets_on_complete] (lines 207-254) *)

(** [str(v)], as an f-string prints a value. *)
Definition py_val_str (v : PyVal) : string :=
  match v with
  | PStr s => s
  | PInt z => pretty z
  | PBool true => "True"
  | PBool false => "False"
  | PNone => "None"
  end.

(** [bool(v)] *)
Definition py_val_truthy (v : PyVal) : bool :=
  match v with
  | PStr s => str_truthy s
  | PInt z => negb (Z.eqb z 0)
  | PBool b => b
  | PNone => false
  end.

(** The one member of the enumeration that the operator uses. *)
Inductive LifecycleStateChange :=
  | OVERWRITE.

(** A facet: one that describes the table, opaque to the operator, or the
    life-cycle facet that the operator adds itself. *)
Inductive Facet :=
  | TableFacet (payload : string)
  | LifecycleStateChangeDatasetFacet (lifecycleStateChange : LifecycleStateChange).

Record Dataset := {
  namespace : string;
  name : string;
  facets : gmap string Facet
}.

Record OperatorLineage := {
  inputs : list Dataset;
  outputs : list Dataset
}.

(** What the collaborators of the lineage phase answer: the region of the
    Data API hook, schema and authority of the SQL hook's connection, and
    [get_facets_from_redshift_table] (its first argument tells which hook it
    is given).  Each may raise. *)
Record LineageWorld := {
  RedshiftDataHook_region_name : string -> Exception + option string;
  RedshiftSQLHook_conn_schema : string -> Exception + option string;
  RedshiftSQLHook_authority : string -> Exception + option string;
  get_facets_from_redshift_table :
    bool -> string -> string -> gmap string PyVal -> option string ->
    Exception + gmap string Facet
}.

(** Lines 219-236: the locals [database], [authority] and
    [output_dataset_facets], by the kind of hook. *)
Definition describe_output (lw : LineageWorld) (self : S3ToRedshiftOperator)
    : Exception + (PyVal * option string * gmap string Facet) :=
  if use_redshift_data self then
    let kwargs := redshift_data_api_kwargs self in
    let database := default PNone (kwargs !! "database") in
    let identifier :=
      default (default PNone (kwargs !! "workgroup_name"))
        (kwargs !! "cluster_identifier") in
    let port := default (PStr "5439") (kwargs !! "port") in
    match RedshiftDataHook_region_name lw (redshift_conn_id self) with
    | inl e => inl e
    | inr region_name =>
        let authority :=
          py_val_str identifier +:+ "." +:+ py_str region_name +:+ ":"
          +:+ py_val_str port in
        match get_facets_from_redshift_table lw true (redshift_conn_id self)
                (table self) kwargs (schema self) with
        | inl e => inl e
        | inr output_dataset_facets => inr (database, Some authority, output_dataset_facets)
        end
    end
  else
    match RedshiftSQLHook_conn_schema lw (redshift_conn_id self) with
    | inl e => inl e
    | inr database =>
        match RedshiftSQLHook_authority lw (redshift_conn_id self) with
        | inl e => inl e
        | inr authority =>
            match get_facets_from_redshift_table lw false (redshift_conn_id self)
                    (table self) ∅ (schema self) with
            | inl e => inl e
            | inr output_dataset_facets =>
                inr (from_option PStr PNone database, authority, output_dataset_facets)
            end
        end
    end.

Definition get_openlineage_facets_on_complete
    (lw : LineageWorld) (self : S3ToRedshiftOperator) : Exception + OperatorLineage :=
  match describe_output lw self with
  | inl e => inl e
  | inr (database, authority, output_dataset_facets) =>
      let output_dataset_facets :=
        if String.eqb (method self) "REPLACE"
        then <["lifecycleStateChange" := LifecycleStateChangeDatasetFacet OVERWRITE]>
               output_dataset_facets
        else output_dataset_facets in
      let output_dataset :=
        {| namespace := "redshift://" +:+ py_str authority;
           name := if py_val_truthy database
                   then py_val_str database +:+ "." +:+ py_str (schema self) +:+ "."
                        +:+ table self
                   else py_str (schema self) +:+ "." +:+ table self;
           facets := output_dataset_facets |} in
      let input_dataset :=
        {| namespace := "s3://" +:+ s3_bucket self;
           name := s3_key self;
           facets := ∅ |} in
      inr {| inputs := [input_dataset]; outputs := [output_dataset] |}
  end.

(** A lineage world: the cluster is in [eu-west-1], the SQL connection is
    on database [dev], and the table has one facet. *)
Definition sample_lineage_world : LineageWorld :=
  {| RedshiftDataHook_region_name := fun _ => inr (Some "eu-west-1");
     RedshiftSQLHook_conn_schema := fun _ => inr (Some "dev");
     RedshiftSQLHook_authority := fun _ => inr (Some "c1.eu-west-1:5439");
     get_facets_from_redshift_table := fun _ _ _ _ _ =>
       inr {[ "schema" := TableFacet "id int" ]} |}.

(** The operator with other Data API keyword arguments. *)
Definition with_redshift_data_api_kwargs (self : S3ToRedshiftOperator)
    (kwargs : gmap string PyVal) : S3ToRedshiftOperator :=
  {| schema := schema self; table := table self; s3_bucket := s3_bucket self;
     s3_key := s3_key self; redshift_conn_id := redshift_conn_id self;
     aws_conn_id := aws_conn_id self; verify := verify self;
     column_list := column_list self;
     copy_options := copy_options self; autocommit := autocommit self;
     method := method self; upsert_keys := upsert_keys self;
     redshift_data_api_kwargs := kwargs |}.

(** ** More readers of a log *)

(** The event by which [run_sql] hands [sql] to the selected hook. *)
Definition submit_event (self : S3ToRedshiftOperator) (sql : Sql) : Event :=
  if use_redshift_data self
  then ExecuteQuery sql (redshift_data_api_kwargs self)
  else Run sql (autocommit self).

(** What the selected hook answers to that call. *)
Definition backend_answer (w : World) (self : S3ToRedshiftOperator) (sql : Sql)
    : Exception + unit :=
  if use_redshift_data self
  then RedshiftDataHook_execute_query w (redshift_conn_id self) sql
         (redshift_data_api_kwargs self)
  else RedshiftSQLHook_run w (redshift_conn_id self) sql (autocommit self).

(** Events of lines 152-161. *)
Definition is_credentials_event (e : Event) : bool :=
  match e with
  | GetConnection _ | NewS3Hook _ _ | GetCredentials => true
  | _ => false
  end.

(** Events that belong to the Data API hook. *)
Definition is_data_api_event (e : Event) : bool :=
  match e with
  | NewRedshiftDataHook _ | ExecuteQuery _ _ => true
  | _ => false
  end.

(** Events that belong to the SQL hook. *)
Definition is_sql_hook_event (e : Event) : bool :=
  match e with
  | NewRedshiftSQLHook _ | Run _ _ => true
  | _ => false
  end.

(** The last log line of [execute], line 205. *)
Definition is_completion (e : Event) : bool :=
  match e with
  | LogInfo msg => String.eqb msg "COPY command complete..."
  | _ => false
  end.

(** The keyword arguments that went along with [sql] in [execute_query]. *)
Fixpoint query_kwargs (t : list Event) : list (gmap string PyVal) :=
  match t with
  | [] => []
  | ExecuteQuery _ kw :: t' => kw :: query_kwargs t'
  | _ :: t' => query_kwargs t'
  end.

(** ** More sample worlds *)

(** The sample world, with a [role_arn] extra that is the empty string. *)
Definition empty_role_world : World :=
  {| S3Hook_get_connection := fun _ =>
       inr {| extra_dejson := {[ "role_arn" := "" ]} |};
     S3Hook_get_credentials := S3Hook_get_credentials sample_world;
     build_credentials_block := build_credentials_block sample_world;
     RedshiftSQLHook_get_table_primary_key :=
       RedshiftSQLHook_get_table_primary_key sample_world;
     RedshiftDataHook_get_table_primary_key :=
       RedshiftDataHook_get_table_primary_key sample_world;
     RedshiftSQLHook_run := RedshiftSQLHook_run sample_world;
     RedshiftDataHook_execute_query := RedshiftDataHook_execute_query sample_world |}.

(** The world [w] with other answers of the SQL hook. *)
Definition with_sql_hook_answers (w : World)
    (primary_key : string -> string -> option string -> Exception + option (list string))
    (run : string -> Sql -> bool -> Exception + unit) : World :=
  {| S3Hook_get_connection := S3Hook_get_connection w;
     S3Hook_get_credentials := S3Hook_get_credentials w;
     build_credentials_block := build_credentials_block w;
     RedshiftSQLHook_get_table_primary_key := primary_key;
     RedshiftDataHook_get_table_primary_key := RedshiftDataHook_get_table_primary_key w;
     RedshiftSQLHook_run := run;
     RedshiftDataHook_execute_query := RedshiftDataHook_execute_query w |}.

(** The world [w] with other answers of the Data API hook. *)
Definition with_data_api_answers (w : World)
    (primary_key : string -> string -> option string -> gmap string PyVal ->
                   Exception + option (list string))
    (execute_query : string -> Sql -> gmap string PyVal -> Exception + unit) : World :=
  {| S3Hook_get_connection := S3Hook_get_connection w;
     S3Hook_get_credentials := S3Hook_get_credentials w;
     build_credentials_block := build_credentials_block w;
     RedshiftSQLHook_get_table_primary_key := RedshiftSQLHook_get_table_primary_key w;
     RedshiftDataHook_get_table_primary_key := primary_key;
     RedshiftSQLHook_run := RedshiftSQLHook_run w;
     RedshiftDataHook_execute_query := execute_query |}.

(** A world whose S3 connection cannot be found. *)
Definition unreachable_world : World :=
  {| S3Hook_get_connection := fun _ => inl (BackendError "connection not found");
     S3Hook_get_credentials := S3Hook_get_credentials sample_world;
     build_credentials_block := build_credentials_block sample_world;
     RedshiftSQLHook_get_table_primary_key :=
       RedshiftSQLHook_get_table_primary_key sample_world;
     RedshiftDataHook_get_table_primary_key :=
       RedshiftDataHook_get_table_primary_key sample_world;
     RedshiftSQLHook_run := RedshiftSQLHook_run sample_world;
     RedshiftDataHook_execute_query := RedshiftDataHook_execute_query sample_world |}.

(** A world whose Redshift refuses the key lookup and every statement. *)
Definition refusing_world : World :=
  {| S3Hook_get_connection := S3Hook_get_connection sample_world;
     S3Hook_get_credentials := S3Hook_get_credentials sample_world;
     build_credentials_block := build_credentials_block sample_world;
     RedshiftSQLHook_get_table_primary_key := fun _ _ _ =>
       inl (BackendError "catalog unavailable");
     RedshiftDataHook_get_table_primary_key := fun _ _ _ _ =>
       inl (BackendError "catalog unavailable");
     RedshiftSQLHook_run := fun _ _ _ => inl (BackendError "permission denied");
     RedshiftDataHook_execute_query := fun _ _ _ =>
       inl (BackendError "permission denied") |}.

(** A world whose tables have the primary key [id]. *)
Definition keyed_world : World :=
  {| S3Hook_get_connection := S3Hook_get_connection sample_world;
     S3Hook_get_credentials := S3Hook_get_credentials sample_world;
     build_credentials_block := build_credentials_block sample_world;
     RedshiftSQLHook_get_table_primary_key := fun _ _ _ => inr (Some ["id"]);
     RedshiftDataHook_get_table_primary_key := fun _ _ _ _ => inr (Some ["id"]);
     RedshiftSQLHook_run := RedshiftSQLHook_run sample_world;
     RedshiftDataHook_execute_query := RedshiftDataHook_execute_query sample_world |}.

(** Keyword arguments for the Data API, and the operator [__init__] builds
    from [orders_args] with them. *)
Definition sample_kwargs : gmap string PyVal :=
  {[ "database" := PStr "dev"; "cluster_identifier" := PStr "c1" ]}.

Definition data_api_orders : S3ToRedshiftOperator :=
  {| schema := Some "public"; table := "orders"; s3_bucket := "bkt"; s3_key := "k";
     redshift_conn_id := "redshift_default"; aws_conn_id := Some "aws_default";
     verify := VerifyNone; column_list := None; copy_options := [];
     autocommit := false; method := "APPEND"; upsert_keys := None;
     redshift_data_api_kwargs := sample_kwargs |}.

(** * Properties *)

Arguments _build_copy_query : simpl never.
Arguments truthy_extra : simpl never.

(** ** The monad and the log *)

Lemma in_list_spec x l : in_list x l = true <-> x ∈ l.
Proof.
  induction l as [|y l IH]; simpl.
  - split; [discriminate | intros H; inversion H].
  - destruct (String.eqb_spec x y) as [->|Hne].
    + split; [intros _; left | done].
    + rewrite IH. split; [by right | ].
      intros H. inversion H; subst; [congruence | done].
Qed.

Lemma available_methods m :
  in_list m AVAILABLE_METHODS = true -> m = "APPEND" \/ m = "REPLACE" \/ m = "UPSERT".
Proof.
  simpl.
  destruct (String.eqb_spec m "APPEND") as [->|?]; auto.
  destruct (String.eqb_spec m "REPLACE") as [->|?]; auto.
  destruct (String.eqb_spec m "UPSERT") as [->|?]; auto.
  intros; discriminate.
Qed.

Lemma bind_inr {A B} (m : M A) (f : A -> M B) t a :
  m = (t, inr a) -> bind m f = (t ++ (f a).1, (f a).2).
Proof. intros ->. simpl. by destruct (f a). Qed.

Lemma bind_inl {A B} (m : M A) (f : A -> M B) t e :
  m = (t, inl e) -> bind m f = (t, inl e).
Proof. by intros ->. Qed.

Lemma submissions_app t t' : submissions (t ++ t') = submissions t ++ submissions t'.
Proof.
  induction t as [|e t IH]; [done|].
  destruct e; simpl; by rewrite ?IH.
Qed.

Lemma fetches_credentials_app t t' :
  fetches_credentials (t ++ t') = fetches_credentials t || fetches_credentials t'.
Proof. induction t as [|e t IH]; [done|]. by destruct e. Qed.

Lemma discovers_keys_app t t' :
  discovers_keys (t ++ t') = discovers_keys t || discovers_keys t'.
Proof. induction t as [|e t IH]; [done|]. by destruct e. Qed.

(** ** The phases of [execute] *)

Lemma select_hook_log self : select_hook self = ([hook_event self], inr tt).
Proof. unfold select_hook, hook_event. by destruct (use_redshift_data self). Qed.

Lemma hook_event_quiet self :
  submissions [hook_event self] = [] /\
  fetches_credentials [hook_event self] = false /\
  discovers_keys [hook_event self] = false.
Proof. unfold hook_event. by destruct (use_redshift_data self). Qed.

Lemma credentials_and_region_quiet w self :
  submissions (credentials_and_region w self).1 = [] /\
  discovers_keys (credentials_and_region w self).1 = false.
Proof.
  unfold credentials_and_region.
  match goal with |- context [bind ?m _] => set (cm := m) end.
  assert (Hcm : submissions cm.1 = [] /\ discovers_keys cm.1 = false).
  { subst cm. destruct (aws_conn_id self) as [id|]; [destruct (str_truthy id)|];
      simpl; try done.
    by destruct (S3Hook_get_connection w id). }
  destruct cm as [t [e|conn]]; simpl in *; [done|].
  destruct Hcm as [Hs Hd].
  destruct (truthy_extra conn "role_arn"); simpl.
  - by rewrite app_nil_r.
  - destruct (S3Hook_get_credentials w _ _); simpl;
      by rewrite submissions_app, discovers_keys_app, Hs, Hd.
Qed.

Lemma get_table_primary_key_log w self :
  (get_table_primary_key w self).1 = [GetTablePrimaryKey (table self) (schema self)].
Proof. unfold get_table_primary_key. by destruct (use_redshift_data self). Qed.

Lemma build_sql_quiet w self ri cb :
  submissions (build_sql w self ri cb).1 = [] /\
  fetches_credentials (build_sql w self ri cb).1 = false.
Proof.
  unfold build_sql.
  destruct (String.eqb (method self) "REPLACE"); [done|].
  destruct (String.eqb (method self) "UPSERT"); [|done].
  destruct (opt_list_truthy (upsert_keys self)) eqn:Hk; simpl.
  - rewrite Hk. done.
  - pose proof (get_table_primary_key_log w self) as Hlog.
    destruct (get_table_primary_key w self) as [t [e|ks]]; simpl in *; subst t; [done|].
    by destruct (opt_list_truthy ks).
Qed.

Lemma run_sql_log w self sql :
  submissions (run_sql w self sql).1 = [sql] /\
  fetches_credentials (run_sql w self sql).1 = false /\
  discovers_keys (run_sql w self sql).1 = false.
Proof.
  unfold run_sql.
  destruct (use_redshift_data self); simpl.
  - by destruct (RedshiftDataHook_execute_query w _ _ _) as [e|[]].
  - by destruct (RedshiftSQLHook_run w _ _ _) as [e|[]].
Qed.

Lemma execute_invalid w self :
  in_list (method self) AVAILABLE_METHODS = false ->
  execute w self =
    ([], inl (AirflowException
                "Method not found! Available methods: ['APPEND', 'REPLACE', 'UPSERT']")).
Proof. unfold execute. by intros ->. Qed.

Lemma execute_credentials_fail w self t0 e :
  in_list (method self) AVAILABLE_METHODS = true ->
  credentials_and_region w self = (t0, inl e) ->
  execute w self = (hook_event self :: t0, inl e).
Proof.
  intros Hm Hc. unfold execute. rewrite Hm, select_hook_log. simpl.
  by rewrite Hc.
Qed.

Lemma execute_build_fails w self t0 ri cb t1 e :
  in_list (method self) AVAILABLE_METHODS = true ->
  credentials_and_region w self = (t0, inr (ri, cb)) ->
  build_sql w self ri cb = (t1, inl e) ->
  execute w self = (hook_event self :: t0 ++ t1, inl e).
Proof.
  intros Hm Hc Hb. unfold execute. rewrite Hm, select_hook_log. simpl.
  rewrite Hc. simpl. by rewrite Hb.
Qed.

Lemma execute_runs w self t0 ri cb t1 sql :
  in_list (method self) AVAILABLE_METHODS = true ->
  credentials_and_region w self = (t0, inr (ri, cb)) ->
  build_sql w self ri cb = (t1, inr sql) ->
  execute w self =
    (hook_event self :: t0 ++ t1 ++ (run_sql w self sql).1, (run_sql w self sql).2).
Proof.
  intros Hm Hc Hb. unfold execute. rewrite Hm, select_hook_log. simpl.
  rewrite Hc. simpl. rewrite Hb. simpl.
  by destruct (run_sql w self sql).
Qed.

(** When planning succeeds, exactly the planned [sql] reaches the hook. *)
Lemma execute_submits w self t0 ri cb t1 sql :
  in_list (method self) AVAILABLE_METHODS = true ->
  credentials_and_region w self = (t0, inr (ri, cb)) ->
  build_sql w self ri cb = (t1, inr sql) ->
  submissions (execute w self).1 = [sql].
Proof.
  intros Hm Hc Hb. rewrite (execute_runs _ _ _ _ _ _ _ Hm Hc Hb). cbn [fst].
  change (hook_event self :: t0 ++ t1 ++ (run_sql w self sql).1)
    with ([hook_event self] ++ t0 ++ t1 ++ (run_sql w self sql).1).
  rewrite !submissions_app.
  destruct (hook_event_quiet self) as (-> & _ & _).
  destruct (credentials_and_region_quiet w self) as [Hq _]. rewrite Hc in Hq.
  destruct (build_sql_quiet w self ri cb) as [Hq' _]. rewrite Hb in Hq'.
  simpl in Hq, Hq'. rewrite Hq, Hq'.
  by destruct (run_sql_log w self sql) as (-> & _ & _).
Qed.

(** ** Invalid methods *)

(** C3: for every [method] outside APPEND, REPLACE, UPSERT, [execute] raises
    the configuration error and its log is empty: no hook was constructed,
    no connection looked up, no credentials fetched, no statement built or
    sent. *)
Theorem invalid_method_fails_first (w : World) (self : S3ToRedshiftOperator) :
  method self ∉ AVAILABLE_METHODS ->
  execute w self =
    ([], inl (AirflowException
                "Method not found! Available methods: ['APPEND', 'REPLACE', 'UPSERT']")).
Proof.
  intros Hm. apply execute_invalid.
  destruct (in_list (method self) AVAILABLE_METHODS) eqn:E; [|done].
  by apply in_list_spec in E.
Qed.

Lemma invalid_method_fails_first_witness :
  execute sample_world (orders "MERGE" None) =
    ([], inl (AirflowException
                "Method not found! Available methods: ['APPEND', 'REPLACE', 'UPSERT']")).
Proof.
  apply (invalid_method_fails_first sample_world (orders "MERGE" None)).
  simpl. rewrite <- in_list_spec. vm_compute. discriminate.
Defined.

(** ** APPEND *)

Lemma copy_query_starts_with_newline self d cb ri co :
  exists rest, _build_copy_query self d cb ri co = String "010"%char rest.
Proof. unfold _build_copy_query. simpl. eauto. Qed.

(** C5: with [method = "APPEND"] the planned [sql] is the compiled COPY
    statement alone, a single statement; neither [BEGIN;] nor [COMMIT] is
    among the statements, no primary key is looked up, and once credentials
    are resolved that one statement is all the hook receives. *)
Theorem append_is_the_copy_statement (w : World) (self : S3ToRedshiftOperator) :
  method self = "APPEND" ->
  forall ri cb,
    let copy_statement :=
      _build_copy_query self (destination self) cb ri (copy_options_clause self) in
    build_sql w self ri cb = ([], inr (SqlStr copy_statement)) /\
    statements (SqlStr copy_statement) = [copy_statement] /\
    ("BEGIN;" ∉ statements (SqlStr copy_statement)) /\
    ("COMMIT" ∉ statements (SqlStr copy_statement)) /\
    (forall t0, credentials_and_region w self = (t0, inr (ri, cb)) ->
                submissions (execute w self).1 = [SqlStr copy_statement]).
Proof.
  intros Hm ri cb copy_statement.
  assert (Hb : build_sql w self ri cb = ([], inr (SqlStr copy_statement))).
  { unfold build_sql, copy_destination. rewrite Hm. reflexivity. }
  destruct (copy_query_starts_with_newline self (destination self) cb ri
              (copy_options_clause self)) as [rest Hrest].
  fold copy_statement in Hrest.
  repeat split; try done.
  - simpl. rewrite Hrest. intros H%list_elem_of_singleton. discriminate.
  - simpl. rewrite Hrest. intros H%list_elem_of_singleton. discriminate.
  - intros t0 Hc. apply (execute_submits w self t0 ri cb []); [by rewrite Hm|done..].
Qed.

Lemma append_is_the_copy_statement_witness :
  submissions (execute sample_world (orders "APPEND" None)).1 =
    [SqlStr (_build_copy_query (orders "APPEND" None) "public.orders"
               "aws_access_key_id=AK;aws_secret_access_key=SK" "region 'eu-west-1'" "")].
Proof.
  destruct (append_is_the_copy_statement sample_world (orders "APPEND" None) eq_refl
              "region 'eu-west-1'" "aws_access_key_id=AK;aws_secret_access_key=SK")
    as (_ & _ & _ & _ & H).
  apply (H [GetConnection "aws_default"; NewS3Hook (Some "aws_default") VerifyNone;
            GetCredentials]).
  reflexivity.
Defined.

(** ** REPLACE *)

Lemma destination_with_schema self s :
  schema self = Some s -> s <> "" -> destination self = s +:+ "." +:+ table self.
Proof. unfold destination. intros -> Hs. by destruct s. Qed.

Lemma destination_without_schema self :
  schema self = None \/ schema self = Some "" -> destination self = table self.
Proof. unfold destination. by intros [-> | ->]. Qed.

(** C2: with [method = "REPLACE"] the planned [sql] is the list
    [BEGIN;], [DELETE FROM <destination>;], the COPY statement, [COMMIT], in
    that order, built without any call on a hook; it is what the hook
    receives once credentials are resolved.  [<destination>] is
    [<schema>.<table>] for a schema that is given (a non-empty string) and
    [<table>] when the schema is [None] or empty. *)
Theorem replace_is_four_statements (w : World) (self : S3ToRedshiftOperator) :
  method self = "REPLACE" ->
  forall ri cb,
    let copy_statement :=
      _build_copy_query self (destination self) cb ri (copy_options_clause self) in
    let sql :=
      SqlList ["BEGIN;"; "DELETE FROM " +:+ destination self +:+ ";"; copy_statement;
               "COMMIT"] in
    build_sql w self ri cb = ([], inr sql) /\
    (forall t0, credentials_and_region w self = (t0, inr (ri, cb)) ->
                submissions (execute w self).1 = [sql]) /\
    (forall s, schema self = Some s -> s <> "" ->
               destination self = s +:+ "." +:+ table self) /\
    (schema self = None \/ schema self = Some "" -> destination self = table self).
Proof.
  intros Hm ri cb copy_statement sql.
  assert (Hb : build_sql w self ri cb = ([], inr sql)).
  { unfold build_sql, copy_destination. rewrite Hm. reflexivity. }
  split; [done|]. split; [|split].
  - intros t0 Hc. apply (execute_submits w self t0 ri cb []); [by rewrite Hm|done..].
  - apply destination_with_schema.
  - apply destination_without_schema.
Qed.

Lemma replace_is_four_statements_witness :
  submissions (execute sample_world (orders "REPLACE" None)).1 =
    [SqlList ["BEGIN;"; "DELETE FROM public.orders;";
              _build_copy_query (orders "REPLACE" None) "public.orders"
                "aws_access_key_id=AK;aws_secret_access_key=SK" "region 'eu-west-1'" "";
              "COMMIT"]].
Proof.
  destruct (replace_is_four_statements sample_world (orders "REPLACE" None) eq_refl
              "region 'eu-west-1'" "aws_access_key_id=AK;aws_secret_access_key=SK")
    as (_ & H & _).
  apply (H [GetConnection "aws_default"; NewS3Hook (Some "aws_default") VerifyNone;
            GetCredentials]).
  reflexivity.
Defined.

(** ** UPSERT *)

Lemma length_append (s1 s2 : string) :
  String.length (s1 +:+ s2) = String.length s1 + String.length s2.
Proof.
  induction s1 as [|a s1 IH]; [done|].
  change (String a s1 +:+ s2) with (String a (s1 +:+ s2)). simpl. by rewrite IH.
Qed.

(** The staging table never has the name of the destination. *)
Lemma staging_is_not_destination self : "#" +:+ table self <> destination self.
Proof.
  unfold destination. intros H%(f_equal String.length). revert H.
  destruct (schema self) as [[|a s]|]; simpl; rewrite ?length_append; simpl; lia.
Qed.

(** C1: with [method = "UPSERT"] and a non-empty [upsert_keys], the planned
    [sql] is a list of six statements: the CREATE TABLE of the staging table
    [#<table>] LIKE the destination INCLUDING DEFAULTS, the COPY into the
    staging table, [BEGIN;], the DELETE FROM destination USING staging whose
    WHERE clause joins [<table>.<key> = #<table>.<key>] over the keys with
    [AND], the INSERT INTO destination SELECT * FROM staging, and [COMMIT].
    The staging table differs from the destination, no hook is called while
    planning, and the list is what the hook receives once credentials are
    resolved. *)
Theorem upsert_with_keys_is_six_statements
    (w : World) (self : S3ToRedshiftOperator) (keys : list string) :
  method self = "UPSERT" ->
  upsert_keys self = Some keys ->
  keys <> [] ->
  forall ri cb,
    let staging := "#" +:+ table self in
    let copy_statement :=
      _build_copy_query self staging cb ri (copy_options_clause self) in
    let where_clause :=
      join " AND "
        (map (fun k => table self +:+ "." +:+ k +:+ " = " +:+ staging +:+ "." +:+ k) keys) in
    let sql :=
      SqlList
        ["CREATE TABLE " +:+ staging +:+ " (LIKE " +:+ destination self
           +:+ " INCLUDING DEFAULTS);";
         copy_statement;
         "BEGIN;";
         "DELETE FROM " +:+ destination self +:+ " USING " +:+ staging +:+ " WHERE "
           +:+ where_clause +:+ ";";
         "INSERT INTO " +:+ destination self +:+ " SELECT * FROM " +:+ staging +:+ ";";
         "COMMIT"] in
    build_sql w self ri cb = ([], inr sql) /\
    length (statements sql) = 6 /\
    staging <> destination self /\
    (forall t0, credentials_and_region w self = (t0, inr (ri, cb)) ->
                submissions (execute w self).1 = [sql]).
Proof.
  intros Hm Hk Hne ri cb staging copy_statement where_clause sql.
  assert (Hb : build_sql w self ri cb = ([], inr sql)).
  { unfold build_sql, where_statement, copy_destination. rewrite Hm, Hk.
    destruct keys; [done|]. reflexivity. }
  repeat split; try done.
  - apply staging_is_not_destination.
  - intros t0 Hc. apply (execute_submits w self t0 ri cb []); [by rewrite Hm|done..].
Qed.

Lemma upsert_with_keys_is_six_statements_witness :
  submissions (execute sample_world (orders "UPSERT" (Some ["id"]))).1 =
    [SqlList
       ["CREATE TABLE #orders (LIKE public.orders INCLUDING DEFAULTS);";
        _build_copy_query (orders "UPSERT" (Some ["id"])) "#orders"
          "aws_access_key_id=AK;aws_secret_access_key=SK" "region 'eu-west-1'" "";
        "BEGIN;";
        "DELETE FROM public.orders USING #orders WHERE orders.id = #orders.id;";
        "INSERT INTO public.orders SELECT * FROM #orders;";
        "COMMIT"]].
Proof.
  assert (Hne : ["id"] <> @nil string) by discriminate.
  destruct (upsert_with_keys_is_six_statements sample_world
              (orders "UPSERT" (Some ["id"])) ["id"] eq_refl eq_refl Hne
              "region 'eu-west-1'" "aws_access_key_id=AK;aws_secret_access_key=SK")
    as (_ & _ & _ & H).
  apply (H [GetConnection "aws_default"; NewS3Hook (Some "aws_default") VerifyNone;
            GetCredentials]).
  reflexivity.
Defined.

(** Without usable [upsert_keys], planning starts with the key lookup. *)
Lemma upsert_plan_looks_up_keys w self ri cb :
  method self = "UPSERT" ->
  opt_list_truthy (upsert_keys self) = false ->
  (build_sql w self ri cb).1 = [GetTablePrimaryKey (table self) (schema self)].
Proof.
  intros Hm Hk. unfold build_sql. rewrite Hm, Hk. simpl.
  pose proof (get_table_primary_key_log w self) as Hlog.
  destruct (get_table_primary_key w self) as [t [e|ks]]; simpl in *; subst t; [done|].
  by destruct (opt_list_truthy ks).
Qed.

Lemma upsert_lookup_is_logged w self t0 ri cb :
  method self = "UPSERT" ->
  opt_list_truthy (upsert_keys self) = false ->
  credentials_and_region w self = (t0, inr (ri, cb)) ->
  discovers_keys (execute w self).1 = true.
Proof.
  intros Hm Hk Hc.
  pose proof (upsert_plan_looks_up_keys w self ri cb Hm Hk) as Hlog.
  assert (Hin : in_list (method self) AVAILABLE_METHODS = true) by (by rewrite Hm).
  destruct (build_sql w self ri cb) as [t1 [e|sql]] eqn:Hb; simpl in Hlog; subst t1.
  - rewrite (execute_build_fails w self t0 ri cb _ _ Hin Hc Hb). cbn [fst].
    change (hook_event self :: t0 ++ [GetTablePrimaryKey (table self) (schema self)])
      with ([hook_event self] ++ t0 ++ [GetTablePrimaryKey (table self) (schema self)]).
    rewrite !discovers_keys_app. simpl. by rewrite !orb_true_r.
  - rewrite (execute_runs w self t0 ri cb _ _ Hin Hc Hb). cbn [fst].
    change (hook_event self :: t0 ++ [GetTablePrimaryKey (table self) (schema self)]
              ++ (run_sql w self sql).1)
      with ([hook_event self] ++ t0 ++ [GetTablePrimaryKey (table self) (schema self)]
              ++ (run_sql w self sql).1).
    rewrite !discovers_keys_app. simpl. by rewrite !orb_true_r.
Qed.

Lemma upsert_empty_lookup_fails w self t0 ri cb ks :
  method self = "UPSERT" ->
  opt_list_truthy (upsert_keys self) = false ->
  credentials_and_region w self = (t0, inr (ri, cb)) ->
  (get_table_primary_key w self).2 = inr ks ->
  ks = None \/ ks = Some [] ->
  (execute w self).2 =
    inl (AirflowException
           ("No primary key on " +:+ py_str (schema self) +:+ "." +:+ table self
            +:+ ". Please provide keys on 'upsert_keys'")) /\
  submissions (execute w self).1 = [].
Proof.
  intros Hm Hk Hc Hpk Hks.
  assert (Hb : build_sql w self ri cb =
               ([GetTablePrimaryKey (table self) (schema self)],
                inl (AirflowException
                       ("No primary key on " +:+ py_str (schema self) +:+ "."
                        +:+ table self +:+ ". Please provide keys on 'upsert_keys'")))).
  { unfold build_sql. rewrite Hm, Hk. simpl.
    pose proof (get_table_primary_key_log w self) as Hlog.
    destruct (get_table_primary_key w self) as [t r]. simpl in *. subst t r.
    by destruct Hks as [-> | ->]. }
  rewrite (execute_build_fails w self t0 ri cb _ _ ltac:(by rewrite Hm) Hc Hb).
  cbn [fst snd]. split; [done|].
  destruct (credentials_and_region_quiet w self) as [Hs _]. rewrite Hc in Hs.
  simpl in Hs.
  change (hook_event self :: t0 ++ [GetTablePrimaryKey (table self) (schema self)])
    with ([hook_event self] ++ t0 ++ [GetTablePrimaryKey (table self) (schema self)]).
  rewrite !submissions_app, Hs.
  by destruct (hook_event_quiet self) as (-> & _ & _).
Qed.

(** C4: with [method = "UPSERT"], no [upsert_keys], and a primary-key
    lookup that answers with nothing (no list, or an empty one), [execute]
    raises the no-primary-key error; the lookup was made and no [sql] was
    handed to a hook. *)
Theorem upsert_without_primary_key_fails
    (w : World) (self : S3ToRedshiftOperator) t0 ri cb ks :
  method self = "UPSERT" ->
  upsert_keys self = None ->
  credentials_and_region w self = (t0, inr (ri, cb)) ->
  (get_table_primary_key w self).2 = inr ks ->
  ks = None \/ ks = Some [] ->
  (execute w self).2 =
    inl (AirflowException
           ("No primary key on " +:+ py_str (schema self) +:+ "." +:+ table self
            +:+ ". Please provide keys on 'upsert_keys'")) /\
  submissions (execute w self).1 = [] /\
  discovers_keys (execute w self).1 = true.
Proof.
  intros Hm Hk Hc Hpk Hks.
  assert (Hf : opt_list_truthy (upsert_keys self) = false) by (by rewrite Hk).
  destruct (upsert_empty_lookup_fails w self t0 ri cb ks Hm Hf Hc Hpk Hks) as [He Hs].
  repeat split; [done..|].
  by apply (upsert_lookup_is_logged w self t0 ri cb).
Qed.

Lemma upsert_without_primary_key_fails_witness :
  (execute sample_world (orders "UPSERT" None)).2 =
    inl (AirflowException
           "No primary key on public.orders. Please provide keys on 'upsert_keys'") /\
  submissions (execute sample_world (orders "UPSERT" None)).1 = [] /\
  discovers_keys (execute sample_world (orders "UPSERT" None)).1 = true.
Proof.
  apply (upsert_without_primary_key_fails sample_world (orders "UPSERT" None)
           [GetConnection "aws_default"; NewS3Hook (Some "aws_default") VerifyNone;
            GetCredentials]
           "region 'eu-west-1'" "aws_access_key_id=AK;aws_secret_access_key=SK" None);
    [reflexivity | reflexivity | reflexivity | reflexivity | by left].
Defined.

(** C10: with [method = "UPSERT"], [upsert_keys = []] runs exactly as
    [upsert_keys = None] does: the same log and the same outcome in every
    world.  In particular the primary-key lookup is still made, and when it
    answers with nothing the no-primary-key error is raised, although a
    list of keys was passed. *)
Theorem empty_upsert_keys_run_as_none (w : World) (self : S3ToRedshiftOperator) :
  method self = "UPSERT" ->
  upsert_keys self = Some [] ->
  execute w self = execute w (with_upsert_keys self None) /\
  (forall t0 ri cb,
      credentials_and_region w self = (t0, inr (ri, cb)) ->
      discovers_keys (execute w self).1 = true /\
      (forall ks,
          (get_table_primary_key w self).2 = inr ks ->
          ks = None \/ ks = Some [] ->
          (execute w self).2 =
            inl (AirflowException
                   ("No primary key on " +:+ py_str (schema self) +:+ "." +:+ table self
                    +:+ ". Please provide keys on 'upsert_keys'")) /\
          submissions (execute w self).1 = [])).
Proof.
  intros Hm Hk.
  assert (Hf : opt_list_truthy (upsert_keys self) = false) by (by rewrite Hk).
  split.
  - unfold execute, build_sql, where_statement, copy_destination. simpl.
    rewrite Hk. reflexivity.
  - intros t0 ri cb Hc. split.
    + by apply (upsert_lookup_is_logged w self t0 ri cb).
    + intros ks Hpk Hks. by apply (upsert_empty_lookup_fails w self t0 ri cb ks).
Qed.

Lemma empty_upsert_keys_run_as_none_witness :
  execute sample_world (orders "UPSERT" (Some [])) =
    execute sample_world (orders "UPSERT" None) /\
  discovers_keys (execute sample_world (orders "UPSERT" (Some []))).1 = true /\
  (execute sample_world (orders "UPSERT" (Some []))).2 =
    inl (AirflowException
           "No primary key on public.orders. Please provide keys on 'upsert_keys'").
Proof.
  destruct (empty_upsert_keys_run_as_none sample_world (orders "UPSERT" (Some []))
              eq_refl eq_refl) as [Heq H].
  destruct (H [GetConnection "aws_default"; NewS3Hook (Some "aws_default") VerifyNone;
               GetCredentials]
              "region 'eu-west-1'" "aws_access_key_id=AK;aws_secret_access_key=SK"
              eq_refl) as [Hd Hfail].
  destruct (Hfail None eq_refl (or_introl eq_refl)) as [He _].
  exact (conj Heq (conj Hd He)).
Defined.

(** ** The column list *)

(** C6: the column list [["a"; "b"]] is rendered as the clause [(a, b)]
    after the destination; with [column_list = None] and with
    [column_list = []] nothing is rendered in its place, no parentheses
    either, and the two COPY texts are the same string. *)
Theorem column_clause_rendering (self : S3ToRedshiftOperator) (d cb ri co : string) :
  column_names (with_column_list self (Some ["a"; "b"])) = "(a, b)" /\
  _build_copy_query (with_column_list self (Some ["a"; "b"])) d cb ri co =
    nl +:+ spaces 20 +:+ "COPY " +:+ d +:+ " (a, b)" +:+
    nl +:+ spaces 20 +:+ "FROM 's3://" +:+ s3_bucket self +:+ "/" +:+ s3_key self +:+ "'" +:+
    nl +:+ spaces 20 +:+ "credentials" +:+
    nl +:+ spaces 20 +:+ "'" +:+ cb +:+ "'" +:+
    nl +:+ spaces 20 +:+ ri +:+
    nl +:+ spaces 20 +:+ co +:+ ";" +:+
    nl +:+ spaces 8 /\
  column_names (with_column_list self None) = "" /\
  column_names (with_column_list self (Some [])) = "" /\
  _build_copy_query (with_column_list self None) d cb ri co =
    _build_copy_query (with_column_list self (Some [])) d cb ri co /\
  _build_copy_query (with_column_list self None) d cb ri co =
    nl +:+ spaces 20 +:+ "COPY " +:+ d +:+ " " +:+
    nl +:+ spaces 20 +:+ "FROM 's3://" +:+ s3_bucket self +:+ "/" +:+ s3_key self +:+ "'" +:+
    nl +:+ spaces 20 +:+ "credentials" +:+
    nl +:+ spaces 20 +:+ "'" +:+ cb +:+ "'" +:+
    nl +:+ spaces 20 +:+ ri +:+
    nl +:+ spaces 20 +:+ co +:+ ";" +:+
    nl +:+ spaces 8.
Proof. repeat split; reflexivity. Qed.

(** ** Construction *)

Lemma dict_has_truthy {V} (k : string) (d : gmap string V) :
  dict_has k d = true -> dict_truthy d = true.
Proof.
  unfold dict_has, dict_truthy. intros H.
  destruct (decide (d = ∅)) as [->|Hne].
  - by rewrite lookup_empty in H.
  - by rewrite bool_decide_eq_false_2.
Qed.

Lemma dict_has_spec {V} (k : string) (d : gmap string V) :
  dict_has k d = true <-> is_Some (d !! k).
Proof.
  unfold dict_has. destruct (d !! k); split; done.
Qed.

(** C7: when the Data API keyword arguments hold the key [sql] or the key
    [parameters], [__init__] raises the configuration error naming the key
    ([sql] first when both are there).  No operator is returned, so nothing
    can be executed, and the log is empty: nothing was built or contacted. *)
Theorem reserved_kwargs_fail_construction (a : InitArgs) (kw : gmap string PyVal) :
  arg_redshift_data_api_kwargs a = Some kw ->
  is_Some (kw !! "sql") \/ is_Some (kw !! "parameters") ->
  __init__ a =
    ([], inl (AirflowException
                ("Cannot include param '"
                 +:+ (if dict_has "sql" kw then "sql" else "parameters")
                 +:+ "' in Redshift Data API kwargs"))).
Proof.
  intros Ha Hkw. unfold __init__. simpl. rewrite Ha. simpl.
  assert (Ht : dict_truthy kw = true).
  { destruct Hkw as [H|H]; apply dict_has_spec in H; by eapply dict_has_truthy. }
  rewrite Ht. simpl.
  destruct (dict_has "sql" kw) eqn:Hsql; [done|].
  destruct Hkw as [H|H]; apply dict_has_spec in H; [congruence|].
  by rewrite H.
Qed.

Lemma reserved_kwargs_fail_construction_witness :
  __init__ (orders_args (Some {[ "database" := PStr "dev"; "sql" := PStr "SELECT 1" ]})) =
    ([], inl (AirflowException "Cannot include param 'sql' in Redshift Data API kwargs")) /\
  __init__ (orders_args (Some {[ "parameters" := PNone ]})) =
    ([], inl (AirflowException
                "Cannot include param 'parameters' in Redshift Data API kwargs")).
Proof.
  split.
  - etrans.
    + apply (reserved_kwargs_fail_construction
               (orders_args (Some {[ "database" := PStr "dev"; "sql" := PStr "SELECT 1" ]}))
               {[ "database" := PStr "dev"; "sql" := PStr "SELECT 1" ]} eq_refl).
      left. exists (PStr "SELECT 1"). vm_compute. reflexivity.
    + vm_compute. reflexivity.
  - etrans.
    + apply (reserved_kwargs_fail_construction
               (orders_args (Some {[ "parameters" := PNone ]}))
               {[ "parameters" := PNone ]} eq_refl).
      right. exists PNone. vm_compute. reflexivity.
    + vm_compute. reflexivity.
Defined.

(** ** Credentials *)

(** Static credentials are asked for during credential resolution or not
    at all. *)
Lemma execute_fetches w self :
  fetches_credentials (execute w self).1 =
    (in_list (method self) AVAILABLE_METHODS
     && fetches_credentials (credentials_and_region w self).1).
Proof.
  destruct (in_list (method self) AVAILABLE_METHODS) eqn:Hm;
    [|by rewrite execute_invalid].
  simpl.
  assert (Hh : forall t, fetches_credentials (hook_event self :: t) = fetches_credentials t).
  { intros t. unfold hook_event. by destruct (use_redshift_data self). }
  destruct (credentials_and_region w self) as [t0 [e|[ri cb]]] eqn:Hc.
  - rewrite (execute_credentials_fail w self t0 e Hm Hc). cbn [fst]. apply Hh.
  - destruct (build_sql_quiet w self ri cb) as [_ Hq].
    destruct (build_sql w self ri cb) as [t1 [e|sql]] eqn:Hb; simpl in Hq.
    + rewrite (execute_build_fails w self t0 ri cb t1 e Hm Hc Hb). cbn [fst].
      by rewrite Hh, fetches_credentials_app, Hq, orb_false_r.
    + rewrite (execute_runs w self t0 ri cb t1 sql Hm Hc Hb). cbn [fst].
      destruct (run_sql_log w self sql) as (_ & Hr & _).
      by rewrite Hh, !fetches_credentials_app, Hq, Hr, !orb_false_r.
Qed.

(** The COPY statement among the planned ones carries the clause that
    credential resolution produced. *)
Lemma build_sql_embeds_clause w self ri cb t1 sql :
  build_sql w self ri cb = (t1, inr sql) ->
  _build_copy_query self (copy_destination self) cb ri (copy_options_clause self)
    ∈ statements sql.
Proof.
  unfold build_sql.
  destruct (String.eqb (method self) "REPLACE").
  { intros [= _ <-]. simpl. set_solver. }
  destruct (String.eqb (method self) "UPSERT").
  2: { intros [= _ <-]. simpl. set_solver. }
  destruct (if opt_list_truthy (upsert_keys self)
            then ret (upsert_keys self) else get_table_primary_key w self)
    as [t [e|ks]]; simpl; [done|].
  destruct (opt_list_truthy ks); simpl; [|done].
  intros [= _ <-]. simpl. set_solver.
Qed.

(** C9 as stated fails: in [empty_role_world] the connection does contain
    the [role_arn] extra, with the empty string as its value; line 156 tests
    the value for truth, so the S3 hook is built, [get_credentials] is
    called, and the clause is the static one, not [aws_iam_role=]. *)
Lemma empty_role_arn_is_not_used :
  exists conn arn,
    S3Hook_get_connection empty_role_world "aws_default" = inr conn /\
    extra_dejson conn !! "role_arn" = Some arn /\
    credentials_and_region empty_role_world (orders "APPEND" None) =
      ([GetConnection "aws_default"; NewS3Hook (Some "aws_default") VerifyNone;
        GetCredentials],
       inr ("", "aws_access_key_id=AK;aws_secret_access_key=SK")) /\
    "aws_access_key_id=AK;aws_secret_access_key=SK" <> "aws_iam_role=" +:+ arn /\
    fetches_credentials (execute empty_role_world (orders "APPEND" None)).1 = true.
Proof.
  exists {| extra_dejson := {[ "role_arn" := "" ]} |}, "".
  split; [reflexivity|]. split; [vm_compute; reflexivity|].
  split; [vm_compute; reflexivity|]. split; [discriminate|].
  vm_compute. reflexivity.
Qed.

(** C9, amended: when the S3 connection carries a [role_arn] extra that is
    not empty, the credentials clause is [aws_iam_role=<arn>], and neither
    an S3 hook is built nor [get_credentials] called anywhere in [execute].
    Otherwise (the connection has no [role_arn], or an empty one, or no
    connection id is set) the clause is [build_credentials_block] of the
    credentials that [get_credentials] returned.  In both cases the clause
    resolved is the one inside the COPY statement that the hook receives. *)
Theorem role_arn_selects_iam_clause (w : World) (self : S3ToRedshiftOperator) :
  (forall id conn arn,
      aws_conn_id self = Some id -> id <> "" ->
      S3Hook_get_connection w id = inr conn ->
      extra_dejson conn !! "role_arn" = Some arn -> arn <> "" ->
      credentials_and_region w self =
        ([GetConnection id], inr (region_info (Some conn), "aws_iam_role=" +:+ arn)) /\
      fetches_credentials (execute w self).1 = false) /\
  (forall id conn creds,
      aws_conn_id self = Some id -> id <> "" ->
      S3Hook_get_connection w id = inr conn ->
      extra_dejson conn !! "role_arn" = None \/ extra_dejson conn !! "role_arn" = Some "" ->
      S3Hook_get_credentials w (aws_conn_id self) (verify self) = inr creds ->
      credentials_and_region w self =
        ([GetConnection id; NewS3Hook (aws_conn_id self) (verify self); GetCredentials],
         inr (region_info (Some conn), build_credentials_block w creds))) /\
  (forall creds,
      aws_conn_id self = None \/ aws_conn_id self = Some "" ->
      S3Hook_get_credentials w (aws_conn_id self) (verify self) = inr creds ->
      credentials_and_region w self =
        ([NewS3Hook (aws_conn_id self) (verify self); GetCredentials],
         inr ("", build_credentials_block w creds))) /\
  (forall t0 ri cb t1 sql,
      in_list (method self) AVAILABLE_METHODS = true ->
      credentials_and_region w self = (t0, inr (ri, cb)) ->
      build_sql w self ri cb = (t1, inr sql) ->
      submissions (execute w self).1 = [sql] /\
      (_build_copy_query self (copy_destination self) cb ri (copy_options_clause self)
         ∈ statements sql)).
Proof.
  split; [|split; [|split]].
  - intros id conn arn Hid Hne Hconn Harn Hane.
    assert (Hc : credentials_and_region w self =
                 ([GetConnection id],
                  inr (region_info (Some conn), "aws_iam_role=" +:+ arn))).
    { unfold credentials_and_region.
      rewrite Hid. destruct id as [|a id]; [done|]. simpl. rewrite Hconn. simpl.
      unfold truthy_extra at 1. rewrite Harn. by destruct arn. }
    split; [done|].
    rewrite execute_fetches, Hc. apply andb_false_r.
  - intros id conn creds Hid Hne Hconn Harn Hcreds. unfold credentials_and_region.
    rewrite Hcreds, Hid. destruct id as [|a id]; [done|]. simpl. rewrite Hconn. simpl.
    unfold truthy_extra at 1. by destruct Harn as [-> | ->].
  - intros creds Hid Hcreds. unfold credentials_and_region. rewrite Hcreds.
    by destruct Hid as [-> | ->].
  - intros t0 ri cb t1 sql Hm Hc Hb. split.
    + by apply (execute_submits w self t0 ri cb t1).
    + by apply (build_sql_embeds_clause w self ri cb t1).
Qed.

Lemma role_arn_selects_iam_clause_witness :
  credentials_and_region role_world (orders "APPEND" None) =
    ([GetConnection "aws_default"], inr ("", "aws_iam_role=arn:aws:iam::1:role/load")) /\
  fetches_credentials (execute role_world (orders "APPEND" None)).1 = false /\
  credentials_and_region sample_world (orders "APPEND" None) =
    ([GetConnection "aws_default"; NewS3Hook (Some "aws_default") VerifyNone;
      GetCredentials],
     inr ("region 'eu-west-1'", "aws_access_key_id=AK;aws_secret_access_key=SK")).
Proof.
  destruct (role_arn_selects_iam_clause role_world (orders "APPEND" None))
    as (Hrole & _ & _ & _).
  destruct (role_arn_selects_iam_clause sample_world (orders "APPEND" None))
    as (_ & Hstatic & _ & _).
  assert (Hne : "aws_default" <> "") by discriminate.
  assert (Harn : "arn:aws:iam::1:role/load" <> "") by discriminate.
  destruct (Hrole "aws_default"
              {| extra_dejson := {[ "role_arn" := "arn:aws:iam::1:role/load" ]} |}
              "arn:aws:iam::1:role/load" eq_refl Hne eq_refl eq_refl Harn) as [Hc Hf].
  pose proof (Hstatic "aws_default"
                {| extra_dejson := {[ "region" := "eu-west-1" ]} |}
                {| access_key := "AK"; secret_key := "SK"; token := None |}
                eq_refl Hne eq_refl (or_introl eq_refl) eq_refl) as Hs.
  exact (conj Hc (conj Hf Hs)).
Defined.

(** ** Reading the COPY text back *)

Lemma spoofed_texts_coincide :
  _build_copy_query spoof_a "t" "c" "" (copy_options_clause spoof_a) =
    _build_copy_query spoof_b "t" "c" "" (copy_options_clause spoof_b).
Proof. vm_compute. reflexivity. Qed.

Lemma append_assoc (s1 s2 s3 : string) : (s1 +:+ s2) +:+ s3 = s1 +:+ s2 +:+ s3.
Proof.
  induction s1 as [|a s1 IH]; [done|].
  change ((String a s1 +:+ s2) +:+ s3) with (String a ((s1 +:+ s2) +:+ s3)).
  by rewrite IH.
Qed.

Lemma has_char_append c (s1 s2 : string) :
  has_char c (s1 +:+ s2) = has_char c s1 || has_char c s2.
Proof.
  induction s1 as [|a s1 IH]; [done|].
  change (String a s1 +:+ s2) with (String a (s1 +:+ s2)). simpl.
  by rewrite IH, orb_assoc.
Qed.

Lemma split_at_first c (s1 s2 : string) :
  has_char c s1 = false -> split_at c (s1 +:+ String c s2) = Some (s1, s2).
Proof.
  induction s1 as [|a s1 IH]; intros H.
  - change ("" +:+ String c s2) with (String c s2). simpl.
    by rewrite Ascii.eqb_refl.
  - change (String a s1 +:+ String c s2) with (String a (s1 +:+ String c s2)).
    simpl in *. apply orb_false_elim in H as [Ha Hs].
    by rewrite Ha, (IH Hs).
Qed.

Lemma strip_prefix_append (p s : string) : strip_prefix p (p +:+ s) = Some s.
Proof.
  induction p as [|a p IH].
  - change ("" +:+ s) with s. by destruct s.
  - change (String a p +:+ s) with (String a (p +:+ s)). simpl.
    by rewrite Ascii.eqb_refl.
Qed.

Lemma has_char_join c sep (l : list string) :
  has_char c sep = false ->
  Forall (fun x => has_char c x = false) l ->
  has_char c (join sep l) = false.
Proof.
  intros Hsep Hl. induction Hl as [|x l Hx Hl IH]; [done|].
  destruct l as [|y l]; [done|].
  change (join sep (x :: y :: l)) with (x +:+ sep +:+ join sep (y :: l)).
  by rewrite !has_char_append, Hx, Hsep, IH.
Qed.

Lemma column_names_quote_free self :
  (forall cols, column_list self = Some cols ->
                Forall (fun c => has_char "'" c = false) cols) ->
  has_char "'" (column_names self) = false.
Proof.
  intros H. unfold column_names.
  destruct (column_list self) as [[|c cs]|]; [done| |done].
  rewrite !has_char_append, has_char_join; [done..|].
  by apply H.
Qed.

Lemma delimiter_free_has_char c s :
  c ∈ delimiters -> delimiter_free s = true -> has_char c s = false.
Proof.
  unfold delimiter_free. rewrite forallb_forall. intros Hc H.
  apply list_elem_of_In in Hc. apply H in Hc. by destruct (has_char c s).
Qed.

(** The reader inverts [_build_copy_query] as soon as the destination has
    no blank, the column names and the key prefix no quote, the bucket no
    slash. *)
Lemma parse_build_copy_query self d cb ri co :
  has_char " " d = false ->
  has_char "'" (column_names self) = false ->
  has_char "/" (s3_bucket self) = false ->
  has_char "'" (s3_key self) = false ->
  parse_copy_query (_build_copy_query self d cb ri co) =
    Some (d, s3_bucket self, s3_key self).
Proof.
  intros Hd Hcols Hb Hk.
  assert (Htext : exists tail,
    _build_copy_query self d cb ri co =
      (nl +:+ spaces 20 +:+ "COPY ") +:+
      (d +:+ String " "
         ((column_names self +:+ nl +:+ spaces 20 +:+ "FROM ") +:+
          String "'" ("s3://" +:+
            (s3_bucket self +:+ String "/" (s3_key self +:+ String "'" tail)))))).
  { eexists. unfold _build_copy_query. rewrite !append_assoc. reflexivity. }
  destruct Htext as [tail ->]. unfold parse_copy_query.
  rewrite strip_prefix_append, (split_at_first " " d _ Hd).
  rewrite split_at_first by (by rewrite has_char_append, Hcols).
  rewrite strip_prefix_append, (split_at_first "/" _ _ Hb), (split_at_first "'" _ _ Hk).
  done.
Qed.

(** The reader above is misled by [spoof_b]: it reports the bucket and key
    prefix that the column name spells out. *)
Lemma reader_is_spoofed :
  parse_copy_query (_build_copy_query spoof_b "t" "c" "" (copy_options_clause spoof_b)) =
    Some ("t", "b1", "k1") /\
  (s3_bucket spoof_b, s3_key spoof_b) = ("b2", "k2").
Proof. split; vm_compute; reflexivity. Qed.

(** C8 as stated fails: with destination, bucket and key prefix free of
    delimiter characters and nothing asked of the column names, no reader
    whatsoever recovers bucket and key prefix from every COPY text, because
    [spoof_a] and [spoof_b] compile to one and the same text. *)
Lemma copy_text_does_not_determine_source :
  ~ exists parse : string -> option (string * string * string),
      forall self d cb ri co,
        delimiter_free d = true ->
        delimiter_free (s3_bucket self) = true ->
        delimiter_free (s3_key self) = true ->
        parse (_build_copy_query self d cb ri co) = Some (d, s3_bucket self, s3_key self).
Proof.
  intros [parse H].
  pose proof (H spoof_a "t" "c" "" (copy_options_clause spoof_a)
                eq_refl eq_refl eq_refl) as Ha.
  pose proof (H spoof_b "t" "c" "" (copy_options_clause spoof_b)
                eq_refl eq_refl eq_refl) as Hb.
  rewrite spoofed_texts_coincide in Ha. rewrite Ha in Hb. discriminate.
Qed.

(** C8, amended: for every destination, bucket and key prefix free of the
    delimiter characters (quotes, colon and slash, white space), and every
    column list whose names contain no single quote, compiling the COPY
    statement and reading destination, bucket and key prefix back from the
    text returns the original three values. *)
Theorem copy_query_round_trip (self : S3ToRedshiftOperator) (d cb ri co : string) :
  delimiter_free d = true ->
  delimiter_free (s3_bucket self) = true ->
  delimiter_free (s3_key self) = true ->
  (forall cols, column_list self = Some cols ->
                Forall (fun c => has_char "'" c = false) cols) ->
  parse_copy_query (_build_copy_query self d cb ri co) =
    Some (d, s3_bucket self, s3_key self).
Proof.
  intros Hd Hb Hk Hcols.
  apply parse_build_copy_query.
  - apply delimiter_free_has_char; [|done]. unfold delimiters. set_solver.
  - by apply column_names_quote_free.
  - apply delimiter_free_has_char; [|done]. unfold delimiters. set_solver.
  - apply delimiter_free_has_char; [|done]. unfold delimiters. set_solver.
Qed.

Lemma copy_query_round_trip_witness :
  parse_copy_query
    (_build_copy_query (with_column_list (orders "UPSERT" (Some ["id"])) (Some ["a"; "b"]))
       "#orders" "aws_iam_role=arn" "region 'eu-west-1'" "csv") =
    Some ("#orders", "bkt", "k").
Proof.
  apply (copy_query_round_trip
           (with_column_list (orders "UPSERT" (Some ["id"])) (Some ["a"; "b"]))
           "#orders" "aws_iam_role=arn" "region 'eu-west-1'" "csv");
    [reflexivity | reflexivity | reflexivity | ].
  intros cols [= <-]. repeat constructor.
Defined.

(** * Further properties of [execute] *)

(** ** The shape of every log *)

Lemma run_sql_cases w self sql :
  run_sql w self sql =
    match backend_answer w self sql with
    | inl e => ([LogInfo "Executing COPY command..."; submit_event self sql], inl e)
    | inr _ => ([LogInfo "Executing COPY command..."; submit_event self sql;
                 LogInfo "COPY command complete..."], inr tt)
    end.
Proof.
  unfold run_sql, backend_answer, submit_event.
  destruct (use_redshift_data self); simpl.
  - by destruct (RedshiftDataHook_execute_query w _ _ _) as [e|[]].
  - by destruct (RedshiftSQLHook_run w _ _ _) as [e|[]].
Qed.

Lemma credentials_and_region_events w self :
  forallb is_credentials_event (credentials_and_region w self).1 = true.
Proof.
  unfold credentials_and_region.
  match goal with |- context [bind ?m _] => set (cm := m) end.
  assert (Hcm : forallb is_credentials_event cm.1 = true).
  { subst cm. destruct (aws_conn_id self) as [id|]; [destruct (str_truthy id)|];
      simpl; try done.
    by destruct (S3Hook_get_connection w id). }
  destruct cm as [t [e|conn]]; simpl in *; [done|].
  destruct (truthy_extra conn "role_arn"); simpl.
  - by rewrite app_nil_r.
  - destruct (S3Hook_get_credentials w _ _); simpl;
      by rewrite forallb_app, Hcm.
Qed.

(** Planning logs nothing, except the one key lookup of an UPSERT without
    usable [upsert_keys]. *)
Lemma build_sql_log w self ri cb :
  (build_sql w self ri cb).1 = [] \/
  ((build_sql w self ri cb).1 = [GetTablePrimaryKey (table self) (schema self)] /\
   method self = "UPSERT" /\ opt_list_truthy (upsert_keys self) = false).
Proof.
  unfold build_sql.
  destruct (String.eqb (method self) "REPLACE"); [by left|].
  destruct (String.eqb_spec (method self) "UPSERT") as [Hm|_]; [|by left].
  destruct (opt_list_truthy (upsert_keys self)) eqn:Hk; simpl.
  - rewrite Hk. by left.
  - right. split; [|done].
    pose proof (get_table_primary_key_log w self) as Hlog.
    destruct (get_table_primary_key w self) as [t [e|ks]]; simpl in *; subst t; [done|].
    by destruct (opt_list_truthy ks).
Qed.

Lemma execute_log w self :
  (in_list (method self) AVAILABLE_METHODS = false /\ (execute w self).1 = [] /\
   exists e, (execute w self).2 = inl e) \/
  (in_list (method self) AVAILABLE_METHODS = true /\
   exists tc tl tail,
     (execute w self).1 = [hook_event self] ++ tc ++ tl ++ tail /\
     forallb is_credentials_event tc = true /\
     (tl = [] \/
      (tl = [GetTablePrimaryKey (table self) (schema self)] /\
       method self = "UPSERT" /\ opt_list_truthy (upsert_keys self) = false)) /\
     ((tail = [] /\ exists e, (execute w self).2 = inl e) \/
      (exists sql e,
          tail = [LogInfo "Executing COPY command..."; submit_event self sql] /\
          backend_answer w self sql = inl e /\ (execute w self).2 = inl e) \/
      (exists sql,
          tail = [LogInfo "Executing COPY command..."; submit_event self sql;
                  LogInfo "COPY command complete..."] /\
          backend_answer w self sql = inr tt /\ (execute w self).2 = inr tt))).
Proof.
  destruct (in_list (method self) AVAILABLE_METHODS) eqn:Hm.
  2: { left. rewrite (execute_invalid w self Hm). eauto. }
  right. split; [done|].
  pose proof (credentials_and_region_events w self) as Hcr.
  destruct (credentials_and_region w self) as [t0 [e|[ri cb]]] eqn:Hc; simpl in Hcr.
  { exists t0, [], []. rewrite (execute_credentials_fail w self t0 e Hm Hc).
    rewrite !app_nil_r. eauto 10. }
  pose proof (build_sql_log w self ri cb) as Hbl.
  destruct (build_sql w self ri cb) as [t1 [e|sql]] eqn:Hb; simpl in Hbl.
  { exists t0, t1, []. rewrite (execute_build_fails w self t0 ri cb t1 e Hm Hc Hb).
    rewrite !app_nil_r. eauto 10. }
  rewrite (execute_runs w self t0 ri cb t1 sql Hm Hc Hb), run_sql_cases.
  destruct (backend_answer w self sql) as [e|[]] eqn:Ha.
  - exists t0, t1, [LogInfo "Executing COPY command..."; submit_event self sql].
    repeat split; [done..|]. right. left. eauto.
  - exists t0, t1, [LogInfo "Executing COPY command..."; submit_event self sql;
                    LogInfo "COPY command complete..."].
    repeat split; [done..|]. right. right. eauto.
Qed.

Lemma query_kwargs_app t t' : query_kwargs (t ++ t') = query_kwargs t ++ query_kwargs t'.
Proof.
  induction t as [|e t IH]; [done|].
  destruct e; simpl; by rewrite ?IH.
Qed.

(** Credential events are neither submissions, nor key lookups, nor events
    of a Redshift hook, nor the completion line. *)
Lemma credentials_events_quiet t :
  forallb is_credentials_event t = true ->
  submissions t = [] /\ discovers_keys t = false /\ query_kwargs t = [] /\
  existsb is_data_api_event t = false /\ existsb is_sql_hook_event t = false /\
  existsb is_completion t = false.
Proof.
  induction t as [|e t IH]; [done|].
  simpl. intros [He Ht]%andb_true_iff. destruct (IH Ht) as (? & ? & ? & ? & ? & ?).
  by destruct e.
Qed.

(** ** What every run does and never does *)

(** X1: whatever the world answers and however the run ends, [execute] hands
    [sql] to a hook at most once. *)
Theorem execute_submits_at_most_once (w : World) (self : S3ToRedshiftOperator) :
  length (submissions (execute w self).1) <= 1.
Proof.
  destruct (execute_log w self)
    as [(_ & -> & _) | (_ & tc & tl & tail & -> & Htc & Htl & Htail)]; [simpl; lia|].
  rewrite !submissions_app.
  destruct (hook_event_quiet self) as (-> & _ & _).
  destruct (credentials_events_quiet tc Htc) as (-> & _).
  assert (submissions tl = []) as -> by (by destruct Htl as [-> | (-> & _)]).
  destruct Htail as [(-> & _) | [(sql & e & -> & _) | (sql & -> & _)]];
    unfold submit_event; destruct (use_redshift_data self); simpl; lia.
Qed.

(** X2: a run uses one kind of Redshift hook only.  With Data API keyword
    arguments no SQL hook is built or run, the key lookup is the one of the
    Data API hook, and log and outcome of the run are the same whatever an
    SQL hook would answer to a key lookup or to [run]; without them the same
    holds with the two hooks exchanged. *)
Theorem execute_uses_one_backend (w : World) (self : S3ToRedshiftOperator) :
  if use_redshift_data self
  then existsb is_sql_hook_event (execute w self).1 = false /\
       get_table_primary_key w self =
         call (GetTablePrimaryKey (table self) (schema self))
           (RedshiftDataHook_get_table_primary_key w (redshift_conn_id self)
              (table self) (schema self) (redshift_data_api_kwargs self)) /\
       (forall primary_key run,
           execute (with_sql_hook_answers w primary_key run) self = execute w self)
  else existsb is_data_api_event (execute w self).1 = false /\
       get_table_primary_key w self =
         call (GetTablePrimaryKey (table self) (schema self))
           (RedshiftSQLHook_get_table_primary_key w (redshift_conn_id self)
              (table self) (schema self)) /\
       (forall primary_key execute_query,
           execute (with_data_api_answers w primary_key execute_query) self =
             execute w self).
Proof.
  assert (Hev : if use_redshift_data self
                then existsb is_sql_hook_event (execute w self).1 = false
                else existsb is_data_api_event (execute w self).1 = false).
  { destruct (execute_log w self)
      as [(_ & -> & _) | (_ & tc & tl & tail & -> & Htc & Htl & Htail)].
    { by destruct (use_redshift_data self). }
    rewrite !existsb_app.
    destruct (credentials_events_quiet tc Htc) as (_ & _ & _ & -> & -> & _).
    assert (existsb is_sql_hook_event tl = false /\ existsb is_data_api_event tl = false)
      as [-> ->] by (by destruct Htl as [-> | (-> & _)]).
    destruct Htail as [(-> & _) | [(sql & e & -> & _) | (sql & -> & _)]];
      unfold submit_event, hook_event; by destruct (use_redshift_data self). }
  destruct (use_redshift_data self) eqn:Hu.
  - split; [done|]. split.
    + unfold get_table_primary_key. by rewrite Hu.
    + intros primary_key run.
      unfold execute, build_sql, get_table_primary_key, run_sql. by rewrite Hu.
  - split; [done|]. split.
    + unfold get_table_primary_key. by rewrite Hu.
    + intros primary_key execute_query.
      unfold execute, build_sql, get_table_primary_key, run_sql. by rewrite Hu.
Qed.

(** X3: the primary key is looked up only for an UPSERT without usable
    [upsert_keys]: never for APPEND or REPLACE, never when a non-empty list
    of keys was passed. *)
Theorem key_lookup_only_when_needed (w : World) (self : S3ToRedshiftOperator) :
  discovers_keys (execute w self).1 = true ->
  method self = "UPSERT" /\ opt_list_truthy (upsert_keys self) = false.
Proof.
  destruct (execute_log w self)
    as [(_ & -> & _) | (_ & tc & tl & tail & -> & Htc & Htl & Htail)]; [done|].
  rewrite !discovers_keys_app.
  destruct (hook_event_quiet self) as (_ & _ & ->).
  destruct (credentials_events_quiet tc Htc) as (_ & -> & _).
  destruct Htl as [-> | (-> & Hm & Hk)]; [|done].
  destruct Htail as [(-> & _) | [(sql & e & -> & _) | (sql & -> & _)]];
    unfold submit_event; by destruct (use_redshift_data self).
Qed.

Lemma key_lookup_only_when_needed_witness :
  method (orders "UPSERT" None) = "UPSERT" /\
  opt_list_truthy (upsert_keys (orders "UPSERT" None)) = false.
Proof.
  apply (key_lookup_only_when_needed sample_world (orders "UPSERT" None)).
  reflexivity.
Defined.

(** X4: the line [COPY command complete...] is in the log exactly when
    [execute] returned normally; every exception, whoever raised it, leaves
    it out. *)
Theorem completion_logged_iff_success (w : World) (self : S3ToRedshiftOperator) :
  existsb is_completion (execute w self).1 = true <-> (execute w self).2 = inr tt.
Proof.
  destruct (execute_log w self)
    as [(_ & -> & e & ->) | (_ & tc & tl & tail & -> & Htc & Htl & Htail)]; [done|].
  rewrite !existsb_app.
  destruct (credentials_events_quiet tc Htc) as (_ & _ & _ & _ & _ & ->).
  assert (existsb is_completion [hook_event self] = false) as ->
    by (unfold hook_event; by destruct (use_redshift_data self)).
  assert (existsb is_completion tl = false) as ->
    by (by destruct Htl as [-> | (-> & _)]).
  destruct Htail as [(-> & e & ->) | [(sql & e & -> & _ & ->) | (sql & -> & _ & ->)]];
    unfold submit_event; by destruct (use_redshift_data self).
Qed.

(** X5: a run that returns normally has handed exactly one [sql] value to
    the hook, the hook accepted it, and among its statements is the COPY
    into [copy_destination] carrying the region and credentials clauses that
    were resolved in that run. *)
Theorem success_means_one_load (w : World) (self : S3ToRedshiftOperator) :
  (execute w self).2 = inr tt ->
  exists t0 ri cb sql,
    credentials_and_region w self = (t0, inr (ri, cb)) /\
    submissions (execute w self).1 = [sql] /\
    backend_answer w self sql = inr tt /\
    (_build_copy_query self (copy_destination self) cb ri (copy_options_clause self)
       ∈ statements sql).
Proof.
  intros Hok.
  destruct (in_list (method self) AVAILABLE_METHODS) eqn:Hm;
    [|by rewrite (execute_invalid w self Hm) in Hok].
  destruct (credentials_and_region w self) as [t0 [e|[ri cb]]] eqn:Hc;
    [by rewrite (execute_credentials_fail w self t0 e Hm Hc) in Hok|].
  destruct (build_sql w self ri cb) as [t1 [e|sql]] eqn:Hb;
    [by rewrite (execute_build_fails w self t0 ri cb t1 e Hm Hc Hb) in Hok|].
  exists t0, ri, cb, sql. split; [done|]. split; [|split].
  - by apply (execute_submits w self t0 ri cb t1).
  - rewrite (execute_runs w self t0 ri cb t1 sql Hm Hc Hb), run_sql_cases in Hok.
    by destruct (backend_answer w self sql) as [e|[]].
  - by apply (build_sql_embeds_clause w self ri cb t1).
Qed.

Lemma success_means_one_load_witness :
  exists t0 ri cb sql,
    credentials_and_region sample_world (orders "REPLACE" None) = (t0, inr (ri, cb)) /\
    submissions (execute sample_world (orders "REPLACE" None)).1 = [sql] /\
    backend_answer sample_world (orders "REPLACE" None) sql = inr tt /\
    (_build_copy_query (orders "REPLACE" None) (copy_destination (orders "REPLACE" None))
       cb ri (copy_options_clause (orders "REPLACE" None)) ∈ statements sql).
Proof.
  apply (success_means_one_load sample_world (orders "REPLACE" None)).
  reflexivity.
Defined.

(** X6: exceptions of the collaborators reach the caller unchanged.  One
    raised while the S3 connection or the credentials are fetched ends the
    run before any key lookup and any submission; one raised by the key
    lookup ends it before any submission; one raised by the hook that
    received [sql] is the outcome of the run. *)
Theorem collaborator_exceptions_propagate (w : World) (self : S3ToRedshiftOperator) :
  in_list (method self) AVAILABLE_METHODS = true ->
  (forall t0 e,
      credentials_and_region w self = (t0, inl e) ->
      (execute w self).2 = inl e /\
      submissions (execute w self).1 = [] /\
      discovers_keys (execute w self).1 = false) /\
  (forall t0 ri cb e,
      credentials_and_region w self = (t0, inr (ri, cb)) ->
      method self = "UPSERT" ->
      opt_list_truthy (upsert_keys self) = false ->
      (get_table_primary_key w self).2 = inl e ->
      (execute w self).2 = inl e /\ submissions (execute w self).1 = []) /\
  (forall t0 ri cb t1 sql,
      credentials_and_region w self = (t0, inr (ri, cb)) ->
      build_sql w self ri cb = (t1, inr sql) ->
      (execute w self).2 = backend_answer w self sql).
Proof.
  intros Hm. split; [|split].
  - intros t0 e Hc. rewrite (execute_credentials_fail w self t0 e Hm Hc). cbn [fst snd].
    pose proof (credentials_and_region_events w self) as Hev. rewrite Hc in Hev.
    destruct (credentials_events_quiet t0 Hev) as (Hs & Hd & _).
    change (hook_event self :: t0) with ([hook_event self] ++ t0).
    rewrite submissions_app, discovers_keys_app, Hs, Hd.
    by destruct (hook_event_quiet self) as (-> & _ & ->).
  - intros t0 ri cb e Hc Hu Hk Hpk.
    assert (Hb : build_sql w self ri cb =
                 ([GetTablePrimaryKey (table self) (schema self)], inl e)).
    { unfold build_sql. rewrite Hu, Hk. simpl.
      pose proof (get_table_primary_key_log w self) as Hlog.
      destruct (get_table_primary_key w self) as [t r]. simpl in *. by subst t r. }
    rewrite (execute_build_fails w self t0 ri cb _ e Hm Hc Hb). cbn [fst snd].
    split; [done|].
    pose proof (credentials_and_region_events w self) as Hev. rewrite Hc in Hev.
    destruct (credentials_events_quiet t0 Hev) as (Hs & _).
    change (hook_event self :: t0 ++ [GetTablePrimaryKey (table self) (schema self)])
      with ([hook_event self] ++ t0 ++ [GetTablePrimaryKey (table self) (schema self)]).
    rewrite !submissions_app, Hs.
    by destruct (hook_event_quiet self) as (-> & _ & _).
  - intros t0 ri cb t1 sql Hc Hb.
    rewrite (execute_runs w self t0 ri cb t1 sql Hm Hc Hb), run_sql_cases.
    by destruct (backend_answer w self sql) as [e|[]].
Qed.

Lemma collaborator_exceptions_propagate_witness :
  (execute unreachable_world (orders "APPEND" None)).2 =
    inl (BackendError "connection not found") /\
  (execute refusing_world (orders "UPSERT" None)).2 =
    inl (BackendError "catalog unavailable") /\
  (execute refusing_world (orders "REPLACE" None)).2 =
    inl (BackendError "permission denied").
Proof.
  destruct (collaborator_exceptions_propagate unreachable_world (orders "APPEND" None)
              eq_refl) as (H1 & _ & _).
  destruct (collaborator_exceptions_propagate refusing_world (orders "UPSERT" None)
              eq_refl) as (_ & H2 & _).
  destruct (collaborator_exceptions_propagate refusing_world (orders "REPLACE" None)
              eq_refl) as (_ & _ & H3).
  split; [|split].
  - exact (proj1 (H1 [GetConnection "aws_default"] _ eq_refl)).
  - exact (proj1 (H2 [GetConnection "aws_default"; NewS3Hook (Some "aws_default") VerifyNone;
                      GetCredentials]
                     "region 'eu-west-1'" "aws_access_key_id=AK;aws_secret_access_key=SK"
                     _ eq_refl eq_refl eq_refl eq_refl)).
  - exact (H3 [GetConnection "aws_default"; NewS3Hook (Some "aws_default") VerifyNone;
               GetCredentials]
              "region 'eu-west-1'" "aws_access_key_id=AK;aws_secret_access_key=SK"
              [] _ eq_refl eq_refl).
Defined.

(** ** Keys found by the lookup *)

Lemma build_sql_with_keys w self ri cb (keys : list string) :
  method self = "UPSERT" ->
  upsert_keys self = Some keys -> keys <> [] ->
  build_sql w self ri cb =
    ([], inr (SqlList
                ["CREATE TABLE " +:+ copy_destination self +:+ " (LIKE "
                   +:+ destination self +:+ " INCLUDING DEFAULTS);";
                 _build_copy_query self (copy_destination self) cb ri
                   (copy_options_clause self);
                 "BEGIN;";
                 "DELETE FROM " +:+ destination self +:+ " USING "
                   +:+ copy_destination self +:+ " WHERE "
                   +:+ where_statement self keys +:+ ";";
                 "INSERT INTO " +:+ destination self +:+ " SELECT * FROM "
                   +:+ copy_destination self +:+ ";";
                 "COMMIT"])).
Proof.
  intros Hm Hk Hne. unfold build_sql. rewrite Hm, Hk.
  destruct keys; [done|]. reflexivity.
Qed.

Lemma build_sql_with_lookup w self ri cb (keys : list string) :
  method self = "UPSERT" ->
  opt_list_truthy (upsert_keys self) = false ->
  (get_table_primary_key w self).2 = inr (Some keys) -> keys <> [] ->
  build_sql w self ri cb =
    ([GetTablePrimaryKey (table self) (schema self)],
     inr (SqlList
            ["CREATE TABLE " +:+ copy_destination self +:+ " (LIKE "
               +:+ destination self +:+ " INCLUDING DEFAULTS);";
             _build_copy_query self (copy_destination self) cb ri
               (copy_options_clause self);
             "BEGIN;";
             "DELETE FROM " +:+ destination self +:+ " USING "
               +:+ copy_destination self +:+ " WHERE "
               +:+ where_statement self keys +:+ ";";
             "INSERT INTO " +:+ destination self +:+ " SELECT * FROM "
               +:+ copy_destination self +:+ ";";
             "COMMIT"])).
Proof.
  intros Hm Hk Hpk Hne. unfold build_sql. rewrite Hm, Hk. simpl.
  pose proof (get_table_primary_key_log w self) as Hlog.
  destruct (get_table_primary_key w self) as [t r]. simpl in *. subst t r.
  destruct keys; [done|]. reflexivity.
Qed.

(** X7: keys found by the lookup are used exactly as keys that were
    passed: a run with no usable [upsert_keys] whose lookup answers [ks]
    (not empty) submits the same [sql] and ends the same way as the run of
    the operator with [upsert_keys = ks] in the same world. *)
Theorem discovered_keys_used_as_supplied
    (w : World) (self : S3ToRedshiftOperator) (ks : list string) :
  method self = "UPSERT" ->
  opt_list_truthy (upsert_keys self) = false ->
  (get_table_primary_key w self).2 = inr (Some ks) ->
  ks <> [] ->
  (forall ri cb,
      (build_sql w self ri cb).2 = (build_sql w (with_upsert_keys self (Some ks)) ri cb).2) /\
  submissions (execute w self).1 =
    submissions (execute w (with_upsert_keys self (Some ks))).1 /\
  (execute w self).2 = (execute w (with_upsert_keys self (Some ks))).2.
Proof.
  intros Hm Hk Hpk Hne.
  set (self' := with_upsert_keys self (Some ks)).
  assert (Hb : forall ri cb,
             (build_sql w self ri cb).2 = (build_sql w self' ri cb).2).
  { intros ri cb.
    rewrite (build_sql_with_lookup w self ri cb ks Hm Hk Hpk Hne).
    by rewrite (build_sql_with_keys w self' ri cb ks Hm eq_refl Hne). }
  split; [done|].
  assert (Hin : in_list (method self) AVAILABLE_METHODS = true) by (by rewrite Hm).
  assert (Hin' : in_list (method self') AVAILABLE_METHODS = true) by done.
  destruct (credentials_and_region w self) as [t0 [e|[ri cb]]] eqn:Hc.
  - assert (Hc' : credentials_and_region w self' = (t0, inl e)) by done.
    rewrite (execute_credentials_fail w self t0 e Hin Hc).
    by rewrite (execute_credentials_fail w self' t0 e Hin' Hc').
  - assert (Hc' : credentials_and_region w self' = (t0, inr (ri, cb))) by done.
    pose proof (build_sql_with_lookup w self ri cb ks Hm Hk Hpk Hne) as H1.
    pose proof (build_sql_with_keys w self' ri cb ks Hm eq_refl Hne) as H2.
    rewrite (execute_submits w self t0 ri cb _ _ Hin Hc H1).
    rewrite (execute_submits w self' t0 ri cb _ _ Hin' Hc' H2).
    rewrite (execute_runs w self t0 ri cb _ _ Hin Hc H1).
    rewrite (execute_runs w self' t0 ri cb _ _ Hin' Hc' H2).
    done.
Qed.

Lemma discovered_keys_used_as_supplied_witness :
  submissions (execute keyed_world (orders "UPSERT" None)).1 =
    submissions (execute keyed_world (orders "UPSERT" (Some ["id"]))).1 /\
  (execute keyed_world (orders "UPSERT" None)).2 =
    (execute keyed_world (orders "UPSERT" (Some ["id"]))).2.
Proof.
  assert (Hne : ["id"] <> @nil string) by discriminate.
  exact (proj2 (discovered_keys_used_as_supplied keyed_world (orders "UPSERT" None) ["id"]
                  eq_refl eq_refl eq_refl Hne)).
Defined.

Lemma join_nonempty sep x (l : list string) : x <> "" -> join sep (x :: l) <> "".
Proof.
  intros Hx H. destruct l as [|y l]; [done|].
  change (join sep (x :: y :: l)) with (x +:+ sep +:+ join sep (y :: l)) in H.
  apply (f_equal String.length) in H. rewrite length_append in H.
  destruct x; [done|]. simpl in H. lia.
Qed.

Lemma where_statement_nonempty self (keys : list string) :
  keys <> [] -> where_statement self keys <> "".
Proof.
  destruct keys as [|k keys]; [done|]. intros _. unfold where_statement.
  apply join_nonempty. intros H%(f_equal String.length).
  rewrite !length_append in H. simpl in H. lia.
Qed.

(** X8: an UPSERT never deletes without a condition: whenever planning
    succeeds, the fourth statement is the DELETE ... USING ... WHERE over a
    non-empty list of keys (those passed, else those looked up), and its
    WHERE clause is not empty. *)
Theorem upsert_delete_is_conditional
    (w : World) (self : S3ToRedshiftOperator) ri cb t sql :
  method self = "UPSERT" ->
  build_sql w self ri cb = (t, inr sql) ->
  exists keys,
    keys <> [] /\
    (if opt_list_truthy (upsert_keys self)
     then upsert_keys self = Some keys
     else (get_table_primary_key w self).2 = inr (Some keys)) /\
    where_statement self keys <> "" /\
    statements sql !! 3 =
      Some ("DELETE FROM " +:+ destination self +:+ " USING " +:+ copy_destination self
            +:+ " WHERE " +:+ where_statement self keys +:+ ";").
Proof.
  intros Hm. unfold build_sql. rewrite Hm. simpl.
  destruct (opt_list_truthy (upsert_keys self)) eqn:Hk; simpl.
  - rewrite Hk. simpl. intros [= _ <-].
    destruct (upsert_keys self) as [[|k keys]|]; try done.
    exists (k :: keys). repeat split; [done|by apply where_statement_nonempty].
  - destruct (get_table_primary_key w self) as [t' [e|[[|k keys]|]]]; simpl; try done.
    intros [= _ <-].
    exists (k :: keys). repeat split; [done|by apply where_statement_nonempty].
Qed.

Lemma upsert_delete_is_conditional_witness :
  exists keys,
    keys <> [] /\
    (get_table_primary_key keyed_world (orders "UPSERT" None)).2 = inr (Some keys) /\
    where_statement (orders "UPSERT" None) keys <> "".
Proof.
  destruct (upsert_delete_is_conditional keyed_world (orders "UPSERT" None)
              "" "c" _ _ eq_refl eq_refl) as (keys & Hne & Hk & Hw & _).
  exists keys. exact (conj Hne (conj Hk Hw)).
Defined.

(** * Further properties of [__init__] *)

Lemma check_reserved_passes (kw : gmap string PyVal) :
  kw !! "sql" = None -> kw !! "parameters" = None ->
  check_reserved ["sql"; "parameters"] kw = ([], inr tt).
Proof. intros Hs Hp. simpl. unfold dict_has. by rewrite Hs, Hp. Qed.

(** What a successful construction says about the keyword arguments. *)
Lemma init_success_kwargs (a : InitArgs) (self : S3ToRedshiftOperator) :
  (__init__ a).2 = inr self ->
  redshift_data_api_kwargs self = default ∅ (arg_redshift_data_api_kwargs a) /\
  redshift_data_api_kwargs self !! "sql" = None /\
  redshift_data_api_kwargs self !! "parameters" = None.
Proof.
  unfold __init__. cbn [redshift_data_api_kwargs].
  set (kw := default ∅ (arg_redshift_data_api_kwargs a)).
  destruct (dict_truthy kw) eqn:Ht.
  - simpl. unfold dict_has.
    destruct (kw !! "sql") eqn:Hs; [done|].
    destruct (kw !! "parameters") eqn:Hp; [done|].
    simpl. by intros [= <-].
  - assert (Hkw : kw = ∅).
    { unfold dict_truthy in Ht. by apply negb_false_iff, bool_decide_eq_true in Ht. }
    intros [= <-]. simpl. fold kw. by rewrite Hkw, !lookup_empty.
Qed.

(** X9: construction succeeds exactly when the constructor of
    [BaseOperator] returned and the Data API keyword arguments (none given
    counts as the empty dictionary) hold neither [sql] nor [parameters].
    An exception of the [BaseOperator] constructor is the outcome whatever
    the keyword arguments are.  On success nothing was logged and the
    operator carries the arguments unchanged, with [copy_options] and the
    keyword arguments defaulted to empty; in particular [method] is stored
    unchecked, whatever its value. *)
Theorem init_succeeds_iff_no_reserved_key (base : Exception + unit) (a : InitArgs) :
  let kw := default ∅ (arg_redshift_data_api_kwargs a) in
  ((exists self, (__init__with_super base a).2 = inr self) <->
   (base = inr tt /\ kw !! "sql" = None /\ kw !! "parameters" = None)) /\
  (forall e, base = inl e -> __init__with_super base a = ([], inl e)) /\
  (forall self,
      (__init__with_super base a).2 = inr self ->
      (__init__with_super base a).1 = [] /\
      method self = arg_method a /\
      upsert_keys self = arg_upsert_keys a /\
      column_list self = arg_column_list a /\
      copy_options self = default [] (arg_copy_options a) /\
      redshift_data_api_kwargs self = kw).
Proof.
  intros kw. destruct base as [e|[]]; simpl.
  { split; [split; [by intros [? ?]|by intros [? _]]|]. split; [by intros ? [= <-]|done]. }
  split; [|split; [done|]].
  - split.
    + intros [self Hself]. split; [done|].
      destruct (init_success_kwargs a self Hself) as (Hk & Hs & Hp).
      fold kw in Hk. by rewrite <- Hk.
    + intros (_ & Hs & Hp). unfold __init__. cbn [redshift_data_api_kwargs]. fold kw.
      destruct (dict_truthy kw); [|simpl; eauto].
      rewrite (check_reserved_passes kw Hs Hp). simpl. eauto.
  - intros self Hself.
    destruct (init_success_kwargs a self Hself) as (Hk & Hs & Hp). fold kw in Hk.
    rewrite Hk in Hs, Hp. revert Hself.
    unfold __init__. cbn [redshift_data_api_kwargs]. fold kw.
    destruct (dict_truthy kw); [|by intros [= <-]].
    rewrite (check_reserved_passes kw Hs Hp). simpl. by intros [= <-].
Qed.

Lemma query_kwargs_of_execute w self kw :
  kw ∈ query_kwargs (execute w self).1 -> kw = redshift_data_api_kwargs self.
Proof.
  destruct (execute_log w self)
    as [(_ & -> & _) | (_ & tc & tl & tail & -> & Htc & Htl & Htail)].
  { intros H. inversion H. }
  rewrite !query_kwargs_app.
  destruct (credentials_events_quiet tc Htc) as (_ & _ & -> & _).
  assert (query_kwargs [hook_event self] = []) as ->
    by (unfold hook_event; by destruct (use_redshift_data self)).
  assert (query_kwargs tl = []) as -> by (by destruct Htl as [-> | (-> & _)]).
  destruct Htail as [(-> & _) | [(sql & e & -> & _) | (sql & -> & _)]];
    unfold submit_event; destruct (use_redshift_data self); simpl;
    first [ by intros ?%list_elem_of_singleton | intros H; inversion H ].
Qed.

(** X10: an operator that [__init__] returned never passes [sql] or
    [parameters] twice: every [execute_query] call that [execute] makes
    carries the keyword arguments given at construction, and these hold
    neither reserved key. *)
Theorem constructed_operator_keeps_kwargs_clean
    (a : InitArgs) (self : S3ToRedshiftOperator) (w : World) (kw : gmap string PyVal) :
  (__init__ a).2 = inr self ->
  kw ∈ query_kwargs (execute w self).1 ->
  kw = default ∅ (arg_redshift_data_api_kwargs a) /\
  kw !! "sql" = None /\ kw !! "parameters" = None.
Proof.
  intros Hinit Hkw.
  destruct (init_success_kwargs a self Hinit) as (Hk & Hs & Hp).
  apply query_kwargs_of_execute in Hkw. subst kw.
  by rewrite <- Hk.
Qed.

Lemma constructed_operator_keeps_kwargs_clean_witness :
  sample_kwargs = default ∅ (arg_redshift_data_api_kwargs (orders_args (Some sample_kwargs)))
  /\ sample_kwargs !! "sql" = None /\ sample_kwargs !! "parameters" = None.
Proof.
  apply (constructed_operator_keeps_kwargs_clean (orders_args (Some sample_kwargs))
           data_api_orders sample_world sample_kwargs).
  - vm_compute. reflexivity.
  - vm_compute. constructor.
Defined.

Lemma init_succeeds_iff_no_reserved_key_witness :
  (__init__with_super (inr tt) (orders_args (Some sample_kwargs))).1 = [] /\
  method data_api_orders = arg_method (orders_args (Some sample_kwargs)) /\
  redshift_data_api_kwargs data_api_orders = sample_kwargs /\
  __init__with_super (inl (BackendError "missing task_id"))
    (orders_args (Some sample_kwargs)) = ([], inl (BackendError "missing task_id")).
Proof.
  destruct (init_succeeds_iff_no_reserved_key (inr tt) (orders_args (Some sample_kwargs)))
    as (_ & _ & H).
  destruct (init_succeeds_iff_no_reserved_key (inl (BackendError "missing task_id"))
              (orders_args (Some sample_kwargs))) as (_ & Hbase & _).
  assert (Hinit : (__init__with_super (inr tt) (orders_args (Some sample_kwargs))).2
                  = inr data_api_orders)
    by (vm_compute; reflexivity).
  destruct (H data_api_orders Hinit) as (H1 & H2 & _ & _ & _ & H3).
  exact (conj H1 (conj H2 (conj H3 (Hbase _ eq_refl)))).
Defined.

(** * Properties of [get_openlineage_facets_on_complete] *)

Lemma no_kwargs_without_data_api self :
  use_redshift_data self = false -> redshift_data_api_kwargs self = ∅.
Proof.
  unfold use_redshift_data, dict_truthy. intros H.
  by apply negb_false_iff, bool_decide_eq_true in H.
Qed.

Lemma lineage_success lw self lin :
  get_openlineage_facets_on_complete lw self = inr lin ->
  exists database authority tf,
    describe_output lw self = inr (database, authority, tf) /\
    get_facets_from_redshift_table lw (use_redshift_data self) (redshift_conn_id self)
      (table self) (redshift_data_api_kwargs self) (schema self) = inr tf /\
    lin =
      {| inputs := [{| namespace := "s3://" +:+ s3_bucket self; name := s3_key self;
                       facets := ∅ |}];
         outputs :=
           [{| namespace := "redshift://" +:+ py_str authority;
               name := (if py_val_truthy database then py_val_str database +:+ "." else "")
                       +:+ py_str (schema self) +:+ "." +:+ table self;
               facets := if String.eqb (method self) "REPLACE"
                         then <["lifecycleStateChange" :=
                                  LifecycleStateChangeDatasetFacet OVERWRITE]> tf
                         else tf |}] |}.
Proof.
  unfold get_openlineage_facets_on_complete.
  destruct (describe_output lw self) as [e|[[database authority] tf]] eqn:Hd; [done|].
  intros [= <-]. exists database, authority, tf. split; [done|]. split.
  - unfold describe_output in Hd.
    destruct (use_redshift_data self) eqn:Hu.
    + destruct (RedshiftDataHook_region_name lw _); [done|].
      destruct (get_facets_from_redshift_table lw true _ _ _ _); [done|].
      by injection Hd as _ _ ->.
    + rewrite (no_kwargs_without_data_api self Hu).
      destruct (RedshiftSQLHook_conn_schema lw _); [done|].
      destruct (RedshiftSQLHook_authority lw _); [done|].
      destruct (get_facets_from_redshift_table lw false _ _ _ _); [done|].
      by injection Hd as _ _ ->.
  - destruct (py_val_truthy database); [|done].
    by rewrite append_assoc.
Qed.

(** X11: when the lineage is produced, there is one input, the S3 location
    [s3://<bucket>] with the key prefix as its name, and one output, which
    carries the facets of the table as they were returned; the operator
    changes only the entry [lifecycleStateChange], which it sets to
    OVERWRITE exactly when [method] is REPLACE. *)
Theorem lineage_marks_only_replace_as_overwrite
    (lw : LineageWorld) (self : S3ToRedshiftOperator) (lin : OperatorLineage) :
  get_openlineage_facets_on_complete lw self = inr lin ->
  exists out tf,
    get_facets_from_redshift_table lw (use_redshift_data self) (redshift_conn_id self)
      (table self) (redshift_data_api_kwargs self) (schema self) = inr tf /\
    inputs lin = [{| namespace := "s3://" +:+ s3_bucket self; name := s3_key self;
                     facets := ∅ |}] /\
    outputs lin = [out] /\
    (forall k, k <> "lifecycleStateChange" -> facets out !! k = tf !! k) /\
    facets out !! "lifecycleStateChange" =
      (if String.eqb (method self) "REPLACE"
       then Some (LifecycleStateChangeDatasetFacet OVERWRITE)
       else tf !! "lifecycleStateChange").
Proof.
  intros (database & authority & tf & _ & Htf & ->)%lineage_success.
  eexists _, tf. split; [done|]. split; [done|]. split; [done|]. simpl.
  destruct (String.eqb (method self) "REPLACE"); split; try done.
  - intros k Hk. by rewrite lookup_insert_ne.
  - by rewrite lookup_insert_eq.
Qed.

Lemma lineage_marks_only_replace_as_overwrite_witness :
  exists out tf,
    get_facets_from_redshift_table sample_lineage_world false "redshift_default" "orders"
      ∅ (Some "public") = inr tf /\
    outputs {| inputs := [{| namespace := "s3://bkt"; name := "k"; facets := ∅ |}];
               outputs := [{| namespace := "redshift://c1.eu-west-1:5439";
                              name := "dev.public.orders";
                              facets := <["lifecycleStateChange" :=
                                            LifecycleStateChangeDatasetFacet OVERWRITE]>
                                          {[ "schema" := TableFacet "id int" ]} |}] |}
      = [out] /\
    facets out !! "lifecycleStateChange" = Some (LifecycleStateChangeDatasetFacet OVERWRITE).
Proof.
  destruct (lineage_marks_only_replace_as_overwrite sample_lineage_world
              (orders "REPLACE" None) _ eq_refl) as (out & tf & Htf & _ & Hout & _ & Hf).
  exists out, tf. exact (conj Htf (conj Hout Hf)).
Defined.

(** X12: the output dataset is named [<schema>.<table>], behind
    [<database>.] when the database is truthy; the database is the entry
    [database] of the keyword arguments with the Data API (None when the
    entry is missing) and the schema of the hook's connection with the SQL
    hook.  The schema is printed as the f-string prints it.  With a schema
    set the name is the destination that [execute] loads into (behind the
    database); with no schema the name reads [None.<table>] and is not the
    destination, which is the bare table name then. *)
Theorem lineage_name_versus_destination
    (lw : LineageWorld) (self : S3ToRedshiftOperator) (lin : OperatorLineage) :
  get_openlineage_facets_on_complete lw self = inr lin ->
  exists out database,
    outputs lin = [out] /\
    (if use_redshift_data self
     then database = default PNone (redshift_data_api_kwargs self !! "database")
     else exists conn_schema,
            RedshiftSQLHook_conn_schema lw (redshift_conn_id self) = inr conn_schema /\
            database = from_option PStr PNone conn_schema) /\
    let database_prefix :=
      if py_val_truthy database then py_val_str database +:+ "." else "" in
    name out = database_prefix +:+ py_str (schema self) +:+ "." +:+ table self /\
    (opt_str_truthy (schema self) = true ->
     name out = database_prefix +:+ destination self) /\
    (schema self = None -> name out = database_prefix +:+ "None." +:+ table self) /\
    (opt_str_truthy (schema self) = false -> name out <> destination self).
Proof.
  intros (database & authority & tf & Hd & _ & ->)%lineage_success.
  eexists _, database. split; [done|]. split.
  { unfold describe_output in Hd. destruct (use_redshift_data self).
    - destruct (RedshiftDataHook_region_name lw _); [done|].
      destruct (get_facets_from_redshift_table lw true _ _ _ _); [done|].
      by injection Hd as <- _ _.
    - destruct (RedshiftSQLHook_conn_schema lw _) as [e|conn_schema]; [done|].
      destruct (RedshiftSQLHook_authority lw _); [done|].
      destruct (get_facets_from_redshift_table lw false _ _ _ _); [done|].
      injection Hd as <- _ _. eauto. }
  cbn zeta. split; [done|]. cbn [name]. unfold destination.
  split; [by intros ->|]. split; [by intros ->|].
  intros -> H%(f_equal String.length). rewrite !length_append in H. simpl in H. lia.
Qed.

Lemma lineage_name_versus_destination_witness :
  exists out database,
    outputs {| inputs := [{| namespace := "s3://bkt"; name := "k"; facets := ∅ |}];
               outputs := [{| namespace := "redshift://c1.eu-west-1:5439";
                              name := "dev.public.orders";
                              facets := {[ "schema" := TableFacet "id int" ]} |}] |}
      = [out] /\
    database = PStr "dev" /\
    name out = "dev." +:+ "public.orders".
Proof.
  destruct (lineage_name_versus_destination sample_lineage_world
              (orders "APPEND" None) _ eq_refl)
    as (out & database & Hout & Hdb & Hname & _).
  exists out, database. split; [exact Hout|].
  destruct Hdb as (conn_schema & Hcs & ->). injection Hcs as <-.
  split; [reflexivity|exact Hname].
Defined.

(** X13: with the Data API the namespace of the output dataset is
    [redshift://<identifier>.<region>:<port>]; the port is taken from the
    keyword arguments and is 5439 when they have none; the identifier is the
    [cluster_identifier] when that key is there, else the [workgroup_name],
    and prints as None when neither key is there. *)
Theorem data_api_namespace_defaults
    (lw : LineageWorld) (self : S3ToRedshiftOperator) (lin : OperatorLineage) :
  use_redshift_data self = true ->
  get_openlineage_facets_on_complete lw self = inr lin ->
  exists out region identifier port,
    outputs lin = [out] /\
    RedshiftDataHook_region_name lw (redshift_conn_id self) = inr region /\
    namespace out =
      "redshift://" +:+ identifier +:+ "." +:+ py_str region +:+ ":" +:+ port /\
    port = match redshift_data_api_kwargs self !! "port" with
           | Some v => py_val_str v
           | None => "5439"
           end /\
    identifier = match redshift_data_api_kwargs self !! "cluster_identifier" with
                 | Some v => py_val_str v
                 | None =>
                     match redshift_data_api_kwargs self !! "workgroup_name" with
                     | Some v => py_val_str v
                     | None => "None"
                     end
                 end.
Proof.
  intros Hu (database & authority & tf & Hd & _ & ->)%lineage_success.
  unfold describe_output in Hd. rewrite Hu in Hd.
  destruct (RedshiftDataHook_region_name lw _) as [e|region]; [done|].
  destruct (get_facets_from_redshift_table lw true _ _ _ _); [done|].
  injection Hd as _ <- _.
  eexists _, region, _, _. split; [done|]. split; [done|]. split; [done|].
  split.
  - by destruct (redshift_data_api_kwargs self !! "port").
  - destruct (redshift_data_api_kwargs self !! "cluster_identifier"); [done|].
    by destruct (redshift_data_api_kwargs self !! "workgroup_name").
Qed.

Lemma data_api_namespace_defaults_witness :
  exists out region identifier port,
    outputs {| inputs := [{| namespace := "s3://bkt"; name := "k"; facets := ∅ |}];
               outputs := [{| namespace := "redshift://c1.eu-west-1:5439";
                              name := "dev.public.orders";
                              facets := {[ "schema" := TableFacet "id int" ]} |}] |}
      = [out] /\
    region = Some "eu-west-1" /\ identifier = "c1" /\ port = "5439".
Proof.
  destruct (data_api_namespace_defaults sample_lineage_world data_api_orders _
              eq_refl eq_refl)
    as (out & region & identifier & port & Hout & Hr & _ & Hp & Hi).
  exists out, region, identifier, port.
  split; [exact Hout|]. split; [by injection Hr as <-|].
  split; [rewrite Hi|rewrite Hp]; vm_compute; reflexivity.
Defined.

(** * What the plan does not depend on *)

(** X14: [upsert_keys] matters to an UPSERT only: for every other method
    the run is the same, log and outcome, whatever keys were passed. *)
Theorem upsert_keys_ignored_unless_upsert
    (w : World) (self : S3ToRedshiftOperator) (ks : option (list string)) :
  method self <> "UPSERT" ->
  execute w (with_upsert_keys self ks) = execute w self.
Proof.
  intros Hm. unfold execute, build_sql, copy_destination. cbn [method with_upsert_keys].
  destruct (String.eqb_spec (method self) "UPSERT") as [|_]; [done|].
  by destruct (String.eqb (method self) "REPLACE").
Qed.

Lemma upsert_keys_ignored_unless_upsert_witness :
  execute sample_world (with_upsert_keys (orders "REPLACE" None) (Some ["id"])) =
    execute sample_world (orders "REPLACE" None).
Proof.
  apply (upsert_keys_ignored_unless_upsert sample_world (orders "REPLACE" None)
           (Some ["id"])).
  discriminate.
Defined.

(** X15: the statements do not depend on the kind of hook: unless a key
    lookup is needed (an UPSERT without usable [upsert_keys]), planning
    gives the same [sql] and logs nothing, with any Data API keyword
    arguments as with none. *)
Theorem plan_is_independent_of_backend
    (w : World) (self : S3ToRedshiftOperator) (kwargs : gmap string PyVal) ri cb :
  method self <> "UPSERT" \/ opt_list_truthy (upsert_keys self) = true ->
  build_sql w (with_redshift_data_api_kwargs self kwargs) ri cb = build_sql w self ri cb /\
  (build_sql w self ri cb).1 = [].
Proof.
  intros H. unfold build_sql, where_statement, copy_destination.
  cbn [method upsert_keys with_redshift_data_api_kwargs].
  destruct (String.eqb (method self) "REPLACE"); [done|].
  destruct (String.eqb_spec (method self) "UPSERT") as [Hm|_]; [|done].
  destruct H as [H|H]; [done|]. rewrite H. simpl. rewrite H. simpl. done.
Qed.

Lemma plan_is_independent_of_backend_witness :
  build_sql sample_world
    (with_redshift_data_api_kwargs (orders "UPSERT" (Some ["id"])) sample_kwargs) "" "c" =
    build_sql sample_world (orders "UPSERT" (Some ["id"])) "" "c".
Proof.
  apply (plan_is_independent_of_backend sample_world (orders "UPSERT" (Some ["id"]))
           sample_kwargs "" "c").
  right. reflexivity.
Defined.

End S3ToRedshift.
